(** * EV price estimator: the reference catalog and the valuation engine

    A shallow embedding of [backend/app.py].

    Conventions of the embedding.
    - Python [str] values are Rocq strings of ASCII text; [strip] and
      [lower] follow [str.strip()] and [str.lower()] on that range.
    - Numbers read from the reference table are exact rationals ([Q]).
    - Python [float] arithmetic is idealised as exact real arithmetic
      ([R]): [float(x)] is [Q2R], [**] is [Rpower], [round(x, 2)] rounds
      to the nearest hundredth, ties to the even neighbour.  Overflow, NaN
      and binary64 rounding error are outside the model.
    - [datetime.utcnow()] is an explicit argument [now].
    - An exception raised by the code is the [Raise] outcome of [result]. *)

From Stdlib Require Import ZArith List String Ascii Bool Lia.
From Stdlib Require Import QArith Qreals Reals R_Ifp Rpower Lra.
From Stdlib Require Import Permutation.
Import ListNotations.

Local Open Scope string_scope.
Local Open Scope Z_scope.

(** ** Python strings *)

Module PyStr.

(** [str.isspace] on the ASCII range: TAB, LF, VT, FF, CR, the four
    separators FS, GS, RS, US, and the space. *)
Definition is_space (c : ascii) : bool :=
  let n := nat_of_ascii c in
  ((9 <=? n)%nat && (n <=? 13)%nat) || ((28 <=? n)%nat && (n <=? 32)%nat).

Definition is_upper (c : ascii) : bool :=
  let n := nat_of_ascii c in (65 <=? n)%nat && (n <=? 90)%nat.

Definition lower_char (c : ascii) : ascii :=
  if is_upper c then ascii_of_nat (nat_of_ascii c + 32) else c.

(** [s.lower()] *)
Fixpoint lower (s : string) : string :=
  match s with
  | EmptyString => EmptyString
  | String c s' => String (lower_char c) (lower s')
  end.

(** [s.lstrip()] *)
Fixpoint lstrip (s : string) : string :=
  match s with
  | EmptyString => EmptyString
  | String c s' => if is_space c then lstrip s' else s
  end.

(** [s.rstrip()] *)
Fixpoint rstrip (s : string) : string :=
  match s with
  | EmptyString => EmptyString
  | String c s' =>
      match rstrip s' with
      | EmptyString => if is_space c then EmptyString else String c EmptyString
      | r => String c r
      end
  end.

(** [s.strip()] *)
Definition strip (s : string) : string := rstrip (lstrip s).

(** A string made of whitespace only. *)
Fixpoint all_space (s : string) : bool :=
  match s with
  | EmptyString => true
  | String c s' => is_space c && all_space s'
  end.

End PyStr.

(** [s.strip().lower()], the normal form of a make or a model. *)
Definition normalize (s : string) : string := PyStr.lower (PyStr.strip s).

(** ** Exceptions *)

Inductive exn : Set :=
| ValueError.

Inductive result (A : Type) : Type :=
| Ok (a : A)
| Raise (e : exn).

Arguments Ok {A} a.
Arguments Raise {A} e.

Definition bind {A B : Type} (m : result A) (k : A -> result B) : result B :=
  match m with
  | Ok a => k a
  | Raise e => Raise e
  end.

Notation "x <- m ;; k" := (bind m (fun x => k))
  (at level 61, m at next level, right associativity).

(** ** Calendar dates *)

Record datetime : Set := mkDate { year : Z; month : Z; day : Z }.

Module PyDate.

Definition digit (c : ascii) : option Z :=
  let n := nat_of_ascii c in
  if ((48 <=? n)%nat && (n <=? 57)%nat)%bool then Some (Z.of_nat n - 48) else None.

Definition is_dash (c : ascii) : bool := Ascii.eqb c "-"%char.

Definition is_leap (y : Z) : bool :=
  ((y mod 4 =? 0) && negb (y mod 100 =? 0)) || (y mod 400 =? 0).

Definition days_in_month (y m : Z) : Z :=
  if m =? 2 then (if is_leap y then 29 else 28)
  else if (m =? 4) || (m =? 6) || (m =? 9) || (m =? 11) then 30
  else 31.

(** The check made by the [datetime] constructor. *)
Definition valid_date (y m d : Z) : bool :=
  (1 <=? y) && (y <=? 9999) && (1 <=? m) && (m <=? 12) &&
  (1 <=? d) && (d <=? days_in_month y m).

Definition num2 (a b : ascii) : option Z :=
  match digit a, digit b with
  | Some x, Some y => Some (10 * x + y)
  | _, _ => None
  end.

Definition num4 (a b c d : ascii) : option Z :=
  match num2 a b, num2 c d with
  | Some x, Some y => Some (100 * x + y)
  | _, _ => None
  end.

(** [datetime.fromisoformat] on a string of at most ten characters, with
    the format the library documents for the date part: the text must be
    [YYYY-MM-DD] in ASCII digits and name a date of the calendar, years 1
    to 9999.  [None] is the [ValueError] of the library.  (The basic and
    week formats that the library also reads from version 3.11 on are not
    modelled.) *)
Definition fromisoformat (s : string) : option datetime :=
  match list_ascii_of_string s with
  | [y1; y2; y3; y4; s1; m1; m2; s2; d1; d2] =>
      if is_dash s1 && is_dash s2 then
        match num4 y1 y2 y3 y4, num2 m1 m2, num2 d1 d2 with
        | Some y, Some m, Some d =>
            if valid_date y m d then Some (mkDate y m d) else None
        | _, _, _ => None
        end
      else None
  | _ => None
  end.

(** [s[:10]] *)
Definition prefix10 (s : string) : string := substring 0 10 s.

End PyDate.

(** ** Numeric helpers *)

Local Open Scope R_scope.

(** [round(x)] to an integer, ties to even. *)
Definition round_half_even (x : R) : Z :=
  let f := Int_part x in
  let r := frac_part x in
  if Rlt_dec r (1 / 2) then f
  else if Rlt_dec (1 / 2) r then (f + 1)%Z
  else if Z.even f then f else (f + 1)%Z.

(** [round(x, 2)] *)
Definition round2 (x : R) : R := IZR (round_half_even (x * 100)) / 100.

(** [int(x)]: truncation toward zero. *)
Definition int_of (q : Q) : Z := Z.quot (Qnum q) (Zpos (Qden q)).

(** ** Configuration constants (lines 21-24) *)

Definition ANNUAL_DEPRECIATION : R := 0.07.
Definition PER_10K_DEPRECIATION : R := 0.015.
Definition MILEAGE_BUCKET : Z := 10000.
Definition MIN_RETENTION : R := 0.35.

(** ** Request, response and catalog *)

Record ValuationRequest : Set := mkRequest {
  req_make : string;
  req_model : string;
  mileageKm : Z;
  firstRegistration : string
}.

(** The constraint [ge=0] that the request schema puts on [mileageKm]. *)
Definition valid_request (req : ValuationRequest) : Prop :=
  (0 <= mileageKm req)%Z.

Record ValuationResponse : Type := mkResponse {
  estimate : R;
  currency : string;
  confidence : option R
}.

(** One row of [REF_DATA]. *)
Record archetype : Set := mkArchetype {
  make : string;
  model : string;
  base_price : Q;
  year0 : Q
}.

Definition catalog : Set := list archetype.

(** ** [_years_since] and [_clamp] (lines 105-116) *)

Definition _years_since (now : datetime) (first_registration_iso : string) : R :=
  match PyDate.fromisoformat (PyDate.prefix10 first_registration_iso) with
  | None => 0
  | Some d =>
      let months := ((year now - year d) * 12 + (month now - month d))%Z in
      Rmax 0 (IZR months / 12)
  end.

Definition _clamp (v lo hi : R) : R := Rmax lo (Rmin hi v).

(** ** [valuation] (lines 153-181) *)

(** [REF_DATA[(REF_DATA["make"] == make) & (REF_DATA["model"] == model)]] *)
Definition select (REF_DATA : catalog) (mk md : string) : catalog :=
  filter (fun r => String.eqb (make r) mk && String.eqb (model r) md) REF_DATA.

(** Lines 170-176: the estimate before it is rounded. *)
Definition depreciated (base_price years : R) (mileage : Z) : R :=
  let year_factor := Rpower (1 - ANNUAL_DEPRECIATION) years in
  let mileage_blocks := IZR mileage / IZR MILEAGE_BUCKET in
  let mileage_factor := 1 - PER_10K_DEPRECIATION * mileage_blocks in
  let raw := base_price * year_factor * mileage_factor in
  let min_value := base_price * MIN_RETENTION in
  _clamp raw (min_value * 0.8) (base_price * 1.05).

(** Line 179: the confidence before it is rounded. *)
Definition confidence_of (year_gap mileage : Z) : R :=
  _clamp (0.9 - IZR year_gap * 0.06 - Rmin 0.5 (IZR mileage / 200000)) 0.5 0.9.

(** [datetime.fromisoformat(s[:10])] outside any [try]. *)
Definition parse_or_raise (s : string) : result datetime :=
  match PyDate.fromisoformat (PyDate.prefix10 s) with
  | Some d => Ok d
  | None => Raise ValueError
  end.

(** [match.iloc[0]] is the first selected row.  Every catalog that
    [_load_dataset] returns has the columns [base_price] and [year0], so the
    two [else] defaults of lines 166-167 are never taken. *)
Definition valuation (REF_DATA : catalog) (now : datetime)
    (req : ValuationRequest) : result ValuationResponse :=
  let mk := normalize (req_make req) in
  let md := normalize (req_model req) in
  let mileage := mileageKm req in
  let years := _years_since now (firstRegistration req) in
  match select REF_DATA mk md with
  | [] => Ok (mkResponse 10000 "EUR" (Some 0.5))
  | row :: _ =>
      let bp := Q2R (base_price row) in
      let y0 := int_of (year0 row) in
      let estimate := depreciated bp years mileage in
      d <- parse_or_raise (firstRegistration req) ;;
      let year_gap := Z.abs (year d - y0) in
      let confidence := confidence_of year_gap mileage in
      Ok (mkResponse (round2 estimate) "EUR" (Some (round2 confidence)))
  end.

(** ** The raw table and [_load_dataset] (lines 40-102)

    The table is what [pd.read_excel] or [pd.read_csv] returned: the header
    and the rows, a cell being text or a number; tables with missing values
    are not modelled, nor is choosing and reading the file. *)

Local Open Scope Q_scope.

Inductive cell : Set :=
| CStr (s : string)
| CNum (q : Q).

Record DataFrame : Set := mkFrame {
  columns : list string;
  rows : list (list cell)
}.

(** Line 65: [[c.strip().lower() for c in df.columns]] *)
Definition normalize_columns (cols : list string) : list string :=
  map (fun c => PyStr.lower (PyStr.strip c)) cols.

(** [set(names).issubset(cols)] *)
Definition issubset (names cols : list string) : bool :=
  forallb (fun n => existsb (String.eqb n) cols) names.

Fixpoint index_of (name : string) (cols : list string) : option nat :=
  match cols with
  | [] => None
  | c :: cols' =>
      if String.eqb c name then Some O
      else option_map S (index_of name cols')
  end.

Definition cell_at (cols : list string) (row : list cell) (name : string)
  : option cell :=
  match index_of name cols with
  | Some i => nth_error row i
  | None => None
  end.

Definition str_at (cols : list string) (row : list cell) (name : string)
  : option string :=
  match cell_at cols row name with
  | Some (CStr s) => Some s
  | _ => None
  end.

Definition num_at (cols : list string) (row : list cell) (name : string)
  : option Q :=
  match cell_at cols row name with
  | Some (CNum q) => Some q
  | _ => None
  end.

Fixpoint traverse {A B : Type} (f : A -> option B) (l : list A)
  : option (list B) :=
  match l with
  | [] => Some []
  | a :: l' =>
      match f a, traverse f l' with
      | Some b, Some bs => Some (b :: bs)
      | _, _ => None
      end
  end.

(** Lines 69-71: one row of the reference columns, [make] and [model]
    trimmed and lower-cased, the two numbers passed through. *)
Definition canonical_row (cols : list string) (row : list cell)
  : option archetype :=
  match str_at cols row "make", str_at cols row "model",
        num_at cols row "base_price", num_at cols row "year0" with
  | Some mk, Some md, Some bp, Some y =>
      Some (mkArchetype (normalize mk) (normalize md) bp y)
  | _, _, _, _ => None
  end.

(** One transactional row after [assign] (lines 78-81): [astype(str)]
    leaves a text as it is, and the text is trimmed and lower-cased; the
    year is read only when the table has a [registration_year] column. *)
Record sale : Set := mkSale {
  sale_make : string;
  sale_model : string;
  price : Q;
  registration_year : option Q
}.

Definition sale_row (cols : list string) (has_year : bool) (row : list cell)
  : option sale :=
  match str_at cols row "make", str_at cols row "model",
        num_at cols row "price" with
  | Some mk, Some md, Some p =>
      if has_year then
        match num_at cols row "registration_year" with
        | Some y => Some (mkSale (normalize mk) (normalize md) p (Some y))
        | None => None
        end
      else Some (mkSale (normalize mk) (normalize md) p None)
  | _, _, _ => None
  end.

Definition key : Set := (string * string)%type.

Definition key_of (s : sale) : key := (sale_make s, sale_model s).

Definition key_eqb (a b : key) : bool :=
  String.eqb (fst a) (fst b) && String.eqb (snd a) (snd b).

(** The order in which [groupby] lists its groups: by [make], then by
    [model], strings compared character by character. *)
Definition key_leb (a b : key) : bool :=
  match String.compare (fst a) (fst b) with
  | Lt => true
  | Eq => String.leb (snd a) (snd b)
  | Gt => false
  end.

Fixpoint insert_key (k : key) (l : list key) : list key :=
  match l with
  | [] => [k]
  | h :: t => if key_leb k h then k :: l else h :: insert_key k t
  end.

Definition sort_keys (l : list key) : list key := fold_right insert_key [] l.

Fixpoint distinct (l : list key) : list key :=
  match l with
  | [] => []
  | k :: l' => if existsb (key_eqb k) l' then distinct l' else k :: distinct l'
  end.

(** The groups of [groupby(["make", "model"])]. *)
Definition group_keys (sales : list sale) : list key :=
  sort_keys (distinct (map key_of sales)).

Definition members (k : key) (sales : list sale) : list sale :=
  filter (fun s => key_eqb (key_of s) k) sales.

Fixpoint insert_q (x : Q) (l : list Q) : list Q :=
  match l with
  | [] => [x]
  | h :: t => if Qle_bool x h then x :: l else h :: insert_q x t
  end.

Definition sort_q (l : list Q) : list Q := fold_right insert_q [] l.

(** The ["median"] aggregation: the middle value of the sorted group, the
    mean of the two middle values when their number is even.  A group is
    never empty. *)
Definition median (l : list Q) : Q :=
  let s := sort_q l in
  let n := List.length s in
  if Nat.even n
  then (nth (n / 2 - 1) s 0 + nth (n / 2) s 0) / 2
  else nth (n / 2) s 0.

Fixpoint somes {A : Type} (l : list (option A)) : list A :=
  match l with
  | [] => []
  | Some a :: l' => a :: somes l'
  | None :: l' => somes l'
  end.

(** Lines 82-86: one output row per group. *)
Definition aggregate (has_year : bool) (sales : list sale) : catalog :=
  map (fun k =>
         let g := members k sales in
         mkArchetype (fst k) (snd k)
           (median (map price g))
           (if has_year then median (somes (map registration_year g))
            else inject_Z (Z.of_nat (List.length g))))
      (group_keys sales).

(** Line 90: [agg["year0"] = 2020] *)
Definition set_year0 (y : Q) (a : archetype) : archetype :=
  mkArchetype (make a) (model a) (base_price a) y.

(** Lines 94-102 *)
Definition fallback : catalog :=
  [ mkArchetype "tesla" "model 3" 28000 2019;
    mkArchetype "tesla" "model y" 35000 2021;
    mkArchetype "nissan" "leaf" 12000 2018;
    mkArchetype "volkswagen" "id.3" 20000 2020;
    mkArchetype "volkswagen" "id.4" 26000 2021 ].

Definition canonical_columns : list string :=
  ["make"; "model"; "base_price"; "year0"].

Definition transactional_columns : list string :=
  ["make"; "model"; "price"].

(** [_load_dataset] from line 65 on, applied to the table that was read.
    [None] stands for the tables outside the model: a [make] or [model]
    cell that is not text, a price or year cell that is not a number, or a
    row shorter than the header. *)
Definition _load_dataset (df : DataFrame) : option catalog :=
  let cols := normalize_columns (columns df) in
  if issubset canonical_columns cols then
    traverse (canonical_row cols) (rows df)
  else if issubset transactional_columns cols then
    let has_year := existsb (String.eqb "registration_year") cols in
    match traverse (sale_row cols has_year) (rows df) with
    | Some sales =>
        let agg := aggregate has_year sales in
        Some (if has_year then agg else map (set_year0 2020) agg)
    | None => None
    end
  else Some fallback.


(** ** Vocabulary of the statements *)

(** The rows that the request selects. *)
Definition lookup (REF_DATA : catalog) (req : ValuationRequest) : catalog :=
  select REF_DATA (normalize (req_make req)) (normalize (req_model req)).

(** The date that line 107 and line 178 read from the request. *)
Definition registration (req : ValuationRequest) : option datetime :=
  PyDate.fromisoformat (PyDate.prefix10 (firstRegistration req)).

(** The request [req] with another odometer reading. *)
Definition with_mileage (req : ValuationRequest) (m : Z) : ValuationRequest :=
  mkRequest (req_make req) (req_model req) m (firstRegistration req).

(** Two texts that differ only in leading or trailing whitespace and in
    the case of their letters. *)
Definition same_text (s1 s2 : string) : Prop :=
  exists l1 c1 r1 l2 c2 r2 : string,
    s1 = l1 ++ c1 ++ r1 /\ s2 = l2 ++ c2 ++ r2 /\
    PyStr.all_space l1 = true /\ PyStr.all_space r1 = true /\
    PyStr.all_space l2 = true /\ PyStr.all_space r2 = true /\
    PyStr.lower c1 = PyStr.lower c2.

Definition archetype_key (a : archetype) : key := (make a, model a).

(** The normalized key of a raw row. *)
Definition row_key (cols : list string) (row : list cell) : option key :=
  match str_at cols row "make", str_at cols row "model" with
  | Some mk, Some md => Some (normalize mk, normalize md)
  | _, _ => None
  end.


(** The header has the reference columns or the transactional ones. *)
Definition recognized (df : DataFrame) : bool :=
  let cols := normalize_columns (columns df) in
  issubset canonical_columns cols || issubset transactional_columns cols.

(** A list of rationals in ascending order. *)
Inductive ascending : list Q -> Prop :=
| asc_nil : ascending []
| asc_one (x : Q) : ascending [x]
| asc_cons (x y : Q) (l : list Q) :
    x <= y -> ascending (y :: l) -> ascending (x :: y :: l).

(** ** Sample data *)

Definition june_2024 : datetime := mkDate 2024 6 1.

Definition scenario_catalog : catalog :=
  [mkArchetype "tesla" "model 3" 28000 2019].

Definition scenario_request : ValuationRequest :=
  mkRequest "Tesla" "Model 3" 45000 "2020-06-01".

Definition undated_request : ValuationRequest :=
  mkRequest "Tesla" "Model 3" 45000 EmptyString.

Definition unknown_request : ValuationRequest :=
  mkRequest "Lada" "Niva" 45000 "not a date".

Definition cents_catalog : catalog :=
  [mkArchetype "tesla" "model 3" (2800033 # 100) 2024].

Definition negative_catalog : catalog :=
  [mkArchetype "tesla" "model 3" (-10000) 2024].

Definition worn_request : ValuationRequest :=
  mkRequest "Tesla" "Model 3" 500000 "2024-06-01".


Definition unknown_table : DataFrame :=
  mkFrame ["brand"; "name"; "cost"] [[CStr "Tesla"; CStr "Model 3"; CNum 28000]].

Definition sales_table : DataFrame :=
  mkFrame [" Make"; "MODEL "; "Price"; "Registration_Year"]
    [ [CStr "Tesla"; CStr "Model 3"; CNum 30000; CNum 2019];
      [CStr "nissan"; CStr "Leaf "; CNum 10000; CNum 2018];
      [CStr " tesla"; CStr "model 3"; CNum 31000; CNum 2020] ].

Definition negative_table : DataFrame :=
  mkFrame canonical_columns
    [[CStr " Tesla"; CStr "Model 3 "; CNum (-10000); CNum 2024]].

(** ** The listing endpoints (lines 132-149)

    Each endpoint returns a dictionary with one or two entries; the model
    returns the entries. *)

Record HealthResponse : Set := mkHealth { status : string; records : Z }.

Definition health (REF_DATA : catalog) : HealthResponse :=
  mkHealth "ok" (Z.of_nat (List.length REF_DATA)).

(** [Series.unique().tolist()]: the values in the order of their first
    appearance; [seen] holds the values met so far. *)
Fixpoint unique_from (seen l : list string) : list string :=
  match l with
  | [] => []
  | x :: l' =>
      if existsb (String.eqb x) seen then unique_from seen l'
      else x :: unique_from (x :: seen) l'
  end.

Definition unique (l : list string) : list string := unique_from [] l.

Fixpoint insert_str (x : string) (l : list string) : list string :=
  match l with
  | [] => [x]
  | h :: t => if String.leb x h then x :: l else h :: insert_str x t
  end.

(** [sorted(l)] on strings, compared character by character. *)
Definition sorted (l : list string) : list string :=
  fold_right insert_str [] l.

Definition get_makes (REF_DATA : catalog) : list string :=
  sorted (unique (map make REF_DATA)).

Definition get_models (REF_DATA : catalog) (mk : string) : list string :=
  let make_lower := normalize mk in
  sorted (unique (map model
                    (filter (fun r => String.eqb (make r) make_lower)
                       REF_DATA))).

(** ** The choice of the input file (lines 16-19 and 51-62)

    [here] is [os.path.dirname(__file__)] and [path_exists] is
    [os.path.exists]; paths are POSIX paths. *)

(** [s.endswith(suffix)] *)
Definition endswith (s suffix : string) : bool :=
  let n := String.length s in
  let m := String.length suffix in
  (m <=? n)%nat && String.eqb (substring (n - m) m s) suffix.

(** [os.path.join(a, b)] *)
Definition path_join (a b : string) : string :=
  match b with
  | String "/" _ => b
  | _ =>
      if String.eqb a EmptyString || endswith a "/" then a ++ b
      else a ++ "/" ++ b
  end.

Definition DATA_DIR (here : string) : string := path_join here "data".

Definition DEFAULT_CSV (here : string) : string :=
  path_join (DATA_DIR here) "sample_ev_data.csv".

Definition USER_DATA_CSV (here : string) : string :=
  path_join (DATA_DIR here) "ev_data.csv".

Definition USER_DATA_XLSX (here : string) : string :=
  path_join (DATA_DIR here) "ev_data.xlsx".

Inductive reader : Set :=
| read_excel
| read_csv.

(** Lines 51-62: the file that is read and the function that reads it. *)
Definition choose_source (here : string) (path_exists : string -> bool)
  : string * reader :=
  let path :=
    if path_exists (USER_DATA_XLSX here) then USER_DATA_XLSX here
    else if path_exists (USER_DATA_CSV here) then USER_DATA_CSV here
    else DEFAULT_CSV here in
  (path, if endswith path ".xlsx" then read_excel else read_csv).

(** ** More vocabulary *)

(** The request [req] with another registration string. *)
Definition with_registration (req : ValuationRequest) (s : string)
  : ValuationRequest :=
  mkRequest (req_make req) (req_model req) (mileageKm req) s.

(** The months from year 0 to the month of [d]. *)
Definition month_index (d : datetime) : Z := (year d * 12 + month d)%Z.

(** A list of strings in strictly ascending order. *)
Inductive strictly_ascending : list string -> Prop :=
| sa_nil : strictly_ascending []
| sa_one (x : string) : strictly_ascending [x]
| sa_cons (x y : string) (l : list string) :
    String.ltb x y = true -> strictly_ascending (y :: l) ->
    strictly_ascending (x :: y :: l).

(** A file system that holds exactly the listed paths. *)
Definition only_files (files : list string) (path : string) : bool :=
  existsb (String.eqb path) files.

Definition duplicated_table : DataFrame :=
  mkFrame canonical_columns
    [ [CStr "Tesla"; CStr "Model 3"; CNum 28000; CNum 2019];
      [CStr "Nissan"; CStr "Leaf"; CNum 12000; CNum 2018];
      [CStr "tesla "; CStr " model 3"; CNum 99000; CNum 2023] ].

Definition shouting_table : DataFrame :=
  mkFrame ["MAKE"; " Model "; "PRICE"; " Registration_Year"]
    [ [CStr "Tesla"; CStr "Model 3"; CNum 30000; CNum 2019];
      [CStr "nissan"; CStr "Leaf "; CNum 10000; CNum 2018];
      [CStr " tesla"; CStr "model 3"; CNum 31000; CNum 2020] ].

(** * Properties *)

(** ** The embedding on sample inputs *)

Example normalize_padded : normalize " Tesla " = "tesla".
Proof. reflexivity. Qed.

Example normalize_keeps_inner_space : normalize "  Model 3 " = "model 3".
Proof. reflexivity. Qed.

Example fromisoformat_date :
  PyDate.fromisoformat (PyDate.prefix10 "2020-06-01T12:00:00") =
  Some (mkDate 2020 6 1).
Proof. reflexivity. Qed.

Example fromisoformat_rejects :
  PyDate.fromisoformat (PyDate.prefix10 EmptyString) = None /\
  PyDate.fromisoformat (PyDate.prefix10 "2020-6-1") = None /\
  PyDate.fromisoformat (PyDate.prefix10 "2021-02-29") = None /\
  PyDate.fromisoformat (PyDate.prefix10 "01/06/2020") = None.
Proof. repeat split. Qed.

Example fromisoformat_leap_day :
  PyDate.fromisoformat (PyDate.prefix10 "2020-02-29") = Some (mkDate 2020 2 29).
Proof. reflexivity. Qed.

Example median_odd : median [3; 1; 2] = 2.
Proof. reflexivity. Qed.

Example median_even : median [4; 1; 2; 3] = 5 # 2.
Proof. reflexivity. Qed.

Example int_of_truncates : int_of (4039 # 2) = 2019%Z /\ int_of (-5 # 2) = (-2)%Z.
Proof. split; reflexivity. Qed.

Example load_canonical_table :
  _load_dataset negative_table = Some negative_catalog.
Proof. reflexivity. Qed.

(** ** Rounding and clamping *)

Section Rounding.

Local Open Scope R_scope.

Lemma Int_part_bounds (x : R) : IZR (Int_part x) <= x < IZR (Int_part x) + 1.
Proof.
  destruct (base_Int_part x) as [H1 H2]. split; lra.
Qed.

Lemma Int_part_le (x y : R) : x <= y -> (Int_part x <= Int_part y)%Z.
Proof.
  intros Hxy.
  destruct (Int_part_bounds x) as [Hx _], (Int_part_bounds y) as [_ Hy].
  apply Z.lt_succ_r, lt_IZR. rewrite succ_IZR. lra.
Qed.

(** The two outcomes of [round_half_even], with what each says of the
    fractional part. *)
Lemma round_half_even_cases (x : R) :
  let f := Int_part x in
  (round_half_even x = f /\ x - IZR f <= 1 / 2 /\
   (x - IZR f = 1 / 2 -> Z.even f = true)) \/
  (round_half_even x = (f + 1)%Z /\ 1 / 2 <= x - IZR f /\
   (x - IZR f = 1 / 2 -> Z.even f = false)).
Proof.
  cbv zeta. unfold round_half_even, frac_part.
  destruct (Rlt_dec (x - IZR (Int_part x)) (1 / 2)) as [Hlt | Hge].
  - left. repeat split; intros; lra.
  - destruct (Rlt_dec (1 / 2) (x - IZR (Int_part x))) as [Hgt | Hle].
    + right. repeat split; intros; lra.
    + destruct (Z.even (Int_part x)) eqn:He.
      * left. repeat split; intros; try lra; reflexivity.
      * right. repeat split; intros; try lra; reflexivity.
Qed.

Lemma round_half_even_near (x : R) :
  IZR (round_half_even x) - 1 / 2 <= x <= IZR (round_half_even x) + 1 / 2.
Proof.
  destruct (Int_part_bounds x) as [Hlo Hhi].
  destruct (round_half_even_cases x) as [(-> & H & _) | (-> & H & _)].
  - lra.
  - rewrite plus_IZR. lra.
Qed.

Lemma round_half_even_mono (x y : R) :
  x <= y -> (round_half_even x <= round_half_even y)%Z.
Proof.
  intros Hxy.
  pose proof (Int_part_le x y Hxy) as Hf.
  destruct (Int_part_bounds x) as [Hx1 Hx2], (Int_part_bounds y) as [Hy1 Hy2].
  destruct (round_half_even_cases x) as [(-> & Hx & Hxe) | (-> & Hx & Hxe)];
    destruct (round_half_even_cases y) as [(-> & Hy & Hye) | (-> & Hy & Hye)];
    try lia.
  destruct (Z.eq_dec (Int_part x) (Int_part y)) as [E | NE]; [ | lia].
  exfalso. rewrite E in *.
  assert (x - IZR (Int_part y) = 1 / 2) as Hhalf by lra.
  assert (y - IZR (Int_part y) = 1 / 2) as Hhalf' by lra.
  specialize (Hxe Hhalf). specialize (Hye Hhalf'). congruence.
Qed.

(** A real within less than a half of an integer rounds to it. *)
Lemma round_half_even_unique (x : R) (z : Z) :
  IZR z - 1 / 2 < x < IZR z + 1 / 2 -> round_half_even x = z.
Proof.
  intros [H1 H2].
  pose proof (round_half_even_near x) as [H3 H4].
  assert (IZR (round_half_even x) < IZR z + 1) as Ha by lra.
  assert (IZR z < IZR (round_half_even x) + 1) as Hb by lra.
  rewrite <- plus_IZR in Ha, Hb. apply lt_IZR in Ha, Hb. lia.
Qed.

Lemma round_half_even_IZR (z : Z) : round_half_even (IZR z) = z.
Proof. apply round_half_even_unique. lra. Qed.

Lemma round_half_even_tie (z : Z) :
  round_half_even (IZR z + 1 / 2) = if Z.even z then z else (z + 1)%Z.
Proof.
  assert (Int_part (IZR z + 1 / 2) = z) as E
    by (symmetry; apply Int_part_spec; lra).
  destruct (round_half_even_cases (IZR z + 1 / 2))
    as [(-> & _ & He) | (-> & _ & He)];
    rewrite E in *; rewrite He by lra; reflexivity.
Qed.

Example round_half_even_ties :
  round_half_even 2.5 = 2%Z /\ round_half_even 3.5 = 4%Z /\
  round_half_even (-0.5) = 0%Z.
Proof.
  replace 2.5 with (IZR 2 + 1 / 2) by lra.
  replace 3.5 with (IZR 3 + 1 / 2) by lra.
  replace (-0.5) with (IZR (-1) + 1 / 2) by lra.
  rewrite !round_half_even_tie. repeat split.
Qed.

Lemma round2_mono (x y : R) : x <= y -> round2 x <= round2 y.
Proof.
  intros H. unfold round2.
  assert (round_half_even (x * 100) <= round_half_even (y * 100))%Z as Hz
    by (apply round_half_even_mono; lra).
  apply IZR_le in Hz. lra.
Qed.

(** [round2] moves its argument by at most half a hundredth. *)
Lemma round2_near (x : R) : x - 1 / 200 <= round2 x <= x + 1 / 200.
Proof.
  unfold round2. pose proof (round_half_even_near (x * 100)). lra.
Qed.

(** A number of hundredths is its own rounding. *)
Lemma round2_hundredths (z : Z) : round2 (IZR z / 100) = IZR z / 100.
Proof.
  unfold round2. replace (IZR z / 100 * 100) with (IZR z) by lra.
  now rewrite round_half_even_IZR.
Qed.

Lemma round2_unique (x : R) (z : Z) :
  IZR z - 1 / 2 < x * 100 < IZR z + 1 / 2 -> round2 x = IZR z / 100.
Proof.
  intros H. unfold round2. now rewrite (round_half_even_unique _ z H).
Qed.

Lemma clamp_bounds (v lo hi : R) : lo <= hi -> lo <= _clamp v lo hi <= hi.
Proof.
  intros H. unfold _clamp, Rmax, Rmin.
  destruct (Rle_dec hi v); destruct (Rle_dec lo _); lra.
Qed.

Lemma clamp_inside (v lo hi : R) : lo <= v <= hi -> _clamp v lo hi = v.
Proof.
  intros [H1 H2]. unfold _clamp, Rmax, Rmin.
  destruct (Rle_dec hi v); destruct (Rle_dec lo _); lra.
Qed.

Lemma clamp_at_floor (v lo hi : R) : v <= lo -> lo <= hi -> _clamp v lo hi = lo.
Proof.
  intros H1 H2. unfold _clamp, Rmax, Rmin.
  destruct (Rle_dec hi v); destruct (Rle_dec lo _); lra.
Qed.

Lemma clamp_inverted (v lo hi : R) : hi < lo -> _clamp v lo hi = lo.
Proof.
  intros H. unfold _clamp, Rmax, Rmin.
  destruct (Rle_dec hi v); destruct (Rle_dec lo _); lra.
Qed.

Lemma clamp_mono (v w lo hi : R) : v <= w -> _clamp v lo hi <= _clamp w lo hi.
Proof.
  intros H. unfold _clamp, Rmax, Rmin.
  destruct (Rle_dec hi v); destruct (Rle_dec hi w);
    repeat match goal with |- context [Rle_dec ?a ?b] => destruct (Rle_dec a b) end;
    lra.
Qed.

Lemma year_factor_pos (years : R) : 0 < Rpower (1 - ANNUAL_DEPRECIATION) years.
Proof. unfold Rpower. apply exp_pos. Qed.

Lemma years_since_nonneg (now : datetime) (s : string) : 0 <= _years_since now s.
Proof.
  unfold _years_since.
  destruct (PyDate.fromisoformat _); [apply Rmax_l | lra].
Qed.

(** Lines 170-176 on two mileages: more kilometres, no higher estimate. *)
Lemma depreciated_antitone (bp years : R) (m1 m2 : Z) :
  0 <= bp -> (m1 <= m2)%Z ->
  depreciated bp years m2 <= depreciated bp years m1.
Proof.
  intros Hbp Hm. unfold depreciated. apply clamp_mono.
  pose proof (year_factor_pos years) as Hyf.
  apply IZR_le in Hm.
  apply Rmult_le_compat_l.
  - apply Rmult_le_pos; lra.
  - unfold PER_10K_DEPRECIATION, MILEAGE_BUCKET. lra.
Qed.


Lemma depreciated_negative (bp years : R) (m : Z) :
  bp < 0 -> depreciated bp years m = 0.8 * 0.35 * bp.
Proof.
  intros Hbp. unfold depreciated, MIN_RETENTION.
  rewrite clamp_inverted; lra.
Qed.

Lemma confidence_of_bounds (gap m : Z) : 0.5 <= confidence_of gap m <= 0.9.
Proof. unfold confidence_of. apply clamp_bounds. lra. Qed.

Lemma round2_confidence_bounds (c : R) :
  0.5 <= c <= 0.9 -> 0.5 <= round2 c <= 0.9.
Proof.
  intros [H1 H2].
  apply round2_mono in H1, H2.
  assert (round2 0.5 = 0.5) as E1.
  { replace 0.5 with (IZR 50 / 100) by lra. apply round2_hundredths. }
  assert (round2 0.9 = 0.9) as E2.
  { replace 0.9 with (IZR 90 / 100) by lra. apply round2_hundredths. }
  lra.
Qed.

End Rounding.

(** ** The paths of [valuation] *)

Section ValuationPaths.

Local Open Scope R_scope.

Variable REF_DATA : catalog.
Variable now : datetime.
Variable req : ValuationRequest.

Lemma valuation_no_match :
  lookup REF_DATA req = [] ->
  valuation REF_DATA now req = Ok (mkResponse 10000 "EUR" (Some 0.5)).
Proof.
  unfold lookup, valuation. intros ->. reflexivity.
Qed.

Lemma valuation_match (row : archetype) (rest : catalog) (d : datetime) :
  lookup REF_DATA req = row :: rest ->
  registration req = Some d ->
  valuation REF_DATA now req =
  Ok (mkResponse
        (round2 (depreciated (Q2R (base_price row))
                   (_years_since now (firstRegistration req)) (mileageKm req)))
        "EUR"
        (Some (round2 (confidence_of (Z.abs (year d - int_of (year0 row)))
                         (mileageKm req))))).
Proof.
  unfold lookup, registration, valuation, parse_or_raise. intros -> ->. reflexivity.
Qed.

Lemma valuation_match_unparseable (row : archetype) (rest : catalog) :
  lookup REF_DATA req = row :: rest ->
  registration req = None ->
  valuation REF_DATA now req = Raise ValueError.
Proof.
  unfold lookup, registration, valuation, parse_or_raise. intros -> ->. reflexivity.
Qed.

Lemma years_since_parsed (d : datetime) :
  registration req = Some d ->
  _years_since now (firstRegistration req) =
  Rmax 0 (IZR ((year now - year d) * 12 + (month now - month d)) / 12).
Proof. unfold registration, _years_since. intros ->. reflexivity. Qed.

Lemma years_since_unparseable :
  registration req = None ->
  _years_since now (firstRegistration req) = 0.
Proof. unfold registration, _years_since. intros ->. reflexivity. Qed.

End ValuationPaths.

(** ** Claims on the valuation engine *)

Section ValuationClaims.

Local Open Scope R_scope.

Lemma Rmax_zero_zero : Rmax 0 (IZR 0 / 12) = 0.
Proof. unfold Rmax. destruct (Rle_dec 0 (0 / 12)); lra. Qed.

(** C1, at the failing input: the built-in catalog holds tesla / model 3,
    and a request for it whose [firstRegistration] is empty makes
    [valuation] raise [ValueError] at line 178, whatever the date of the
    day, where the claim promises a successful response. *)
Theorem C1_unparseable_date_raises_on_match (now : datetime) :
  lookup fallback undated_request <> [] /\
  registration undated_request = None /\
  _years_since now (firstRegistration undated_request) = 0 /\
  valuation fallback now undated_request = Raise ValueError.
Proof.
  split; [ | split; [ | split ] ].
  - discriminate.
  - reflexivity.
  - apply years_since_unparseable. reflexivity.
  - eapply valuation_match_unparseable; reflexivity.
Qed.

(** C4: a request whose normalized make and model select no row of the
    catalog gets the response [estimate = 10000.0], [confidence = 0.5], and
    nothing is raised, whatever its mileage and its date. *)
Theorem C4_no_match_default (REF_DATA : catalog) (now : datetime)
    (req : ValuationRequest) :
  lookup REF_DATA req = [] ->
  valuation REF_DATA now req = Ok (mkResponse 10000 "EUR" (Some 0.5)).
Proof. apply valuation_no_match. Qed.

Lemma C4_no_match_default_witness :
  lookup fallback unknown_request = [] /\
  valuation fallback june_2024 unknown_request =
    Ok (mkResponse 10000 "EUR" (Some 0.5)).
Proof.
  split; [reflexivity | apply C4_no_match_default; reflexivity].
Defined.

(** C6: when the first ten characters of the string parse as a date [d],
    the elapsed time is [max(0, (now.year - d.year) * 12 + (now.month -
    d.month)) / 12], in which the day of [d] does not occur; when they do
    not parse it is [0.0]. *)
Theorem C6_years_since (now : datetime) (s : string) :
  match PyDate.fromisoformat (PyDate.prefix10 s) with
  | Some d =>
      _years_since now s =
      IZR (Z.max 0 ((year now - year d) * 12 + (month now - month d))) / 12
  | None => _years_since now s = 0
  end.
Proof.
  unfold _years_since.
  destruct (PyDate.fromisoformat (PyDate.prefix10 s)) as [d | ]; [ | reflexivity].
  set (months := ((year now - year d) * 12 + (month now - month d))%Z).
  unfold Rmax. destruct (Rle_dec 0 (IZR months / 12)) as [H | H].
  - assert (0 <= IZR months) as H' by lra.
    apply le_IZR in H'. now rewrite Z.max_r.
  - assert (IZR months < 0) as H' by lra.
    apply lt_IZR in H'. rewrite Z.max_l by lia. lra.
Qed.

Lemma depreciated_at_zero (bp : R) (m : Z) :
  depreciated bp 0 m =
  _clamp (bp * 1 * (1 - 0.015 * (IZR m / 10000))) (bp * 0.35 * 0.8) (bp * 1.05).
Proof.
  unfold depreciated, ANNUAL_DEPRECIATION, PER_10K_DEPRECIATION,
    MILEAGE_BUCKET, MIN_RETENTION.
  rewrite Rpower_O by lra. reflexivity.
Qed.

Lemma worn_request_years :
  _years_since june_2024 (firstRegistration worn_request) = 0.
Proof.
  rewrite (years_since_parsed june_2024 worn_request june_2024) by reflexivity.
  apply Rmax_zero_zero.
Qed.

Lemma worn_request_confidence :
  round2 (confidence_of (Z.abs (2024 - int_of 2024)) 500000) = 0.5.
Proof.
  change (Z.abs (2024 - int_of 2024)) with 0%Z.
  assert (confidence_of 0 500000 = IZR 50 / 100) as ->.
  { unfold confidence_of. rewrite Rmin_left by lra.
    rewrite clamp_at_floor; lra. }
  rewrite round2_hundredths. lra.
Qed.




(** C7: for a matched archetype with a positive base price, a fixed
    registration string and a fixed day, the estimate does not increase with
    the mileage.  Both requests are answered when the registration date
    parses; when it does not, both raise and there is no estimate to
    compare. *)
Theorem C7_estimate_antitone_in_mileage (REF_DATA : catalog) (now : datetime)
    (req : ValuationRequest) (row : archetype) (rest : catalog) (m1 m2 : Z) :
  lookup REF_DATA req = row :: rest ->
  (0 < base_price row)%Q ->
  (m1 <= m2)%Z ->
  match valuation REF_DATA now (with_mileage req m1),
        valuation REF_DATA now (with_mileage req m2) with
  | Ok r1, Ok r2 => registration req <> None /\ estimate r2 <= estimate r1
  | Raise _, Raise _ => registration req = None
  | _, _ => False
  end.
Proof.
  intros Hl Hbp Hm.
  assert (0 <= Q2R (base_price row)) as Hbp'.
  { replace 0 with (Q2R 0) by (unfold Q2R; simpl; lra).
    apply Qle_Rle, Qlt_le_weak, Hbp. }
  destruct (registration req) as [d | ] eqn:Hd.
  - rewrite (valuation_match REF_DATA now (with_mileage req m1) row rest d Hl Hd).
    rewrite (valuation_match REF_DATA now (with_mileage req m2) row rest d Hl Hd).
    split; [discriminate | ]. cbn [estimate].
    apply round2_mono, depreciated_antitone; assumption.
  - rewrite (valuation_match_unparseable REF_DATA now (with_mileage req m1)
               row rest Hl Hd).
    rewrite (valuation_match_unparseable REF_DATA now (with_mileage req m2)
               row rest Hl Hd).
    reflexivity.
Qed.

Lemma C7_estimate_antitone_in_mileage_witness :
  match valuation scenario_catalog june_2024 (with_mileage scenario_request 45000),
        valuation scenario_catalog june_2024 (with_mileage scenario_request 90000)
  with
  | Ok r1, Ok r2 =>
      registration scenario_request <> None /\ estimate r2 <= estimate r1
  | Raise _, Raise _ => registration scenario_request = None
  | _, _ => False
  end.
Proof.
  apply (C7_estimate_antitone_in_mileage scenario_catalog june_2024
           scenario_request (mkArchetype "tesla" "model 3" 28000 2019) []).
  - reflexivity.
  - reflexivity.
  - lia.
Defined.




(** C10: [_clamp(v, lo, hi)] is [max(lo, min(hi, v))], so it is [lo]
    whenever [lo > hi]; hence for a matched archetype with a negative base
    price the estimate before rounding is [0.8 * 0.35 * basePrice], a
    negative number, whatever the mileage and the date, and the response,
    when the date parses, carries that value rounded. *)
Theorem C10_clamp_inverted_bounds (REF_DATA : catalog) (now : datetime)
    (req : ValuationRequest) (row : archetype) (rest : catalog) :
  lookup REF_DATA req = row :: rest ->
  (base_price row < 0)%Q ->
  let bp := Q2R (base_price row) in
  let e := depreciated bp (_years_since now (firstRegistration req))
             (mileageKm req) in
  (forall v lo hi, _clamp v lo hi = Rmax lo (Rmin hi v)) /\
  (forall v lo hi, hi < lo -> _clamp v lo hi = lo) /\
  e = 0.8 * 0.35 * bp /\ e < 0 /\
  (forall d, registration req = Some d ->
     exists r, valuation REF_DATA now req = Ok r /\ estimate r = round2 e).
Proof.
  intros Hl Hbp bp e.
  assert (bp < 0) as Hbp'.
  { replace 0 with (Q2R 0) by (unfold Q2R; simpl; lra).
    apply Qlt_Rlt, Hbp. }
  assert (e = 0.8 * 0.35 * bp) as He by (apply depreciated_negative, Hbp').
  split; [reflexivity | ].
  split; [intros; now apply clamp_inverted | ].
  split; [exact He | ].
  split; [lra | ].
  intros d Hd. eexists.
  split; [apply (valuation_match _ _ _ _ _ _ Hl Hd) | reflexivity].
Qed.

Lemma C10_clamp_inverted_bounds_witness :
  _load_dataset negative_table = Some negative_catalog /\
  let bp := Q2R (-10000) in
  let e := depreciated bp
             (_years_since june_2024 (firstRegistration worn_request))
             (mileageKm worn_request) in
  (forall v lo hi, _clamp v lo hi = Rmax lo (Rmin hi v)) /\
  (forall v lo hi, hi < lo -> _clamp v lo hi = lo) /\
  e = 0.8 * 0.35 * bp /\ e < 0 /\
  (forall d, registration worn_request = Some d ->
     exists r, valuation negative_catalog june_2024 worn_request = Ok r /\
               estimate r = round2 e).
Proof.
  split; [reflexivity | ].
  apply (C10_clamp_inverted_bounds negative_catalog june_2024 worn_request
           (mkArchetype "tesla" "model 3" (-10000) 2024) []); reflexivity.
Defined.

End ValuationClaims.

(** ** Normalization of makes and models *)

Section Normalization.

Import PyStr.

Lemma is_space_lower_char (c : ascii) : is_space (lower_char c) = is_space c.
Proof.
  destruct c as [[] [] [] [] [] [] [] []]; reflexivity.
Qed.

Lemma lower_app (s t : string) : lower (s ++ t) = lower s ++ lower t.
Proof.
  induction s as [ | c s IH]; simpl; [reflexivity | now rewrite IH].
Qed.

Lemma lower_lstrip (s : string) : lower (lstrip s) = lstrip (lower s).
Proof.
  induction s as [ | c s IH]; simpl; [reflexivity | ].
  rewrite is_space_lower_char. destruct (is_space c); [exact IH | reflexivity].
Qed.

Lemma lower_rstrip (s : string) : lower (rstrip s) = rstrip (lower s).
Proof.
  induction s as [ | c s IH]; simpl; [reflexivity | ].
  rewrite <- IH, is_space_lower_char.
  destruct (rstrip s) as [ | c' r]; simpl; [ | reflexivity].
  destruct (is_space c); reflexivity.
Qed.

(** Trimming and lower-casing commute. *)
Lemma lower_strip (s : string) : lower (strip s) = strip (lower s).
Proof. unfold strip. now rewrite lower_rstrip, lower_lstrip. Qed.

Lemma lstrip_all_space (s : string) : all_space s = true -> lstrip s = EmptyString.
Proof.
  induction s as [ | c s IH]; simpl; [reflexivity | ].
  destruct (is_space c); [exact IH | discriminate].
Qed.

Lemma lstrip_app_space (l s : string) :
  all_space l = true -> lstrip (l ++ s) = lstrip s.
Proof.
  induction l as [ | c l IH]; simpl; [reflexivity | ].
  destruct (is_space c); [exact IH | discriminate].
Qed.

Lemma rstrip_all_space (s : string) : all_space s = true -> rstrip s = EmptyString.
Proof.
  induction s as [ | c s IH]; simpl; [reflexivity | ].
  destruct (is_space c); [ | discriminate].
  intros H. now rewrite (IH H).
Qed.

Lemma rstrip_app_space (s r : string) :
  all_space r = true -> rstrip (s ++ r) = rstrip s.
Proof.
  intros H. induction s as [ | c s IH]; simpl.
  - now apply rstrip_all_space.
  - now rewrite IH.
Qed.

Lemma strip_app_space_r (s r : string) :
  all_space r = true -> rstrip (lstrip (s ++ r)) = rstrip (lstrip s).
Proof.
  intros H. induction s as [ | c s IH]; simpl.
  - now rewrite (lstrip_all_space r H).
  - destruct (is_space c); [exact IH | ].
    change (String c (s ++ r)) with (String c s ++ r).
    now apply rstrip_app_space.
Qed.

(** Whitespace around a text does not survive [strip]. *)
Lemma strip_padding (l s r : string) :
  all_space l = true -> all_space r = true -> strip (l ++ s ++ r) = strip s.
Proof.
  intros Hl Hr. unfold strip.
  rewrite (lstrip_app_space l _ Hl). now apply strip_app_space_r.
Qed.

Lemma normalize_same_text (s1 s2 : string) :
  same_text s1 s2 -> normalize s1 = normalize s2.
Proof.
  intros (l1 & c1 & r1 & l2 & c2 & r2 & -> & -> & Hl1 & Hr1 & Hl2 & Hr2 & Hc).
  unfold normalize.
  rewrite (strip_padding l1 c1 r1 Hl1 Hr1), (strip_padding l2 c2 r2 Hl2 Hr2).
  now rewrite !lower_strip, Hc.
Qed.

Lemma rstrip_cons (c : ascii) (s : string) :
  rstrip (String c s) =
  match rstrip s with
  | EmptyString => if is_space c then EmptyString else String c EmptyString
  | r => String c r
  end.
Proof. reflexivity. Qed.

(** A normal form is its own normal form, so the keys that lines 70-71
    store are the keys that line 159 looks for. *)
Lemma strip_strip (s : string) : strip (strip s) = strip s.
Proof.
  unfold strip.
  assert (forall t, rstrip (rstrip t) = rstrip t) as Hrr.
  { induction t as [ | c t IH]; [reflexivity | ].
    rewrite (rstrip_cons c t).
    destruct (rstrip t) as [ | c' r] eqn:E.
    - destruct (is_space c) eqn:Ec; [reflexivity | ].
      rewrite rstrip_cons. cbn [rstrip]. now rewrite Ec.
    - now rewrite rstrip_cons, IH. }
  assert (forall t, lstrip (rstrip (lstrip t)) = rstrip (lstrip t)) as Hlr.
  { induction t as [ | c t IH]; simpl; [reflexivity | ].
    destruct (is_space c) eqn:Ec; [exact IH | ].
    simpl. destruct (rstrip t); simpl; rewrite ?Ec; simpl; rewrite ?Ec;
      reflexivity. }
  now rewrite Hlr, Hrr.
Qed.

Lemma lower_char_lower_char (c : ascii) : lower_char (lower_char c) = lower_char c.
Proof.
  destruct c as [[] [] [] [] [] [] [] []]; reflexivity.
Qed.

Lemma lower_lower (s : string) : lower (lower s) = lower s.
Proof.
  induction s as [ | c s IH]; simpl; [reflexivity | ].
  now rewrite lower_char_lower_char, IH.
Qed.

Lemma normalize_idempotent (s : string) : normalize (normalize s) = normalize s.
Proof.
  unfold normalize. now rewrite <- lower_strip, strip_strip, lower_lower.
Qed.

End Normalization.

(** C9: two requests whose makes and whose models differ only in leading
    or trailing whitespace and in letter case, and which agree on mileage
    and registration, select the same rows of the catalog and receive the
    same outcome on the same day. *)
Theorem C9_lookup_ignores_case_and_padding (REF_DATA : catalog)
    (now : datetime) (req1 req2 : ValuationRequest) :
  same_text (req_make req1) (req_make req2) ->
  same_text (req_model req1) (req_model req2) ->
  mileageKm req1 = mileageKm req2 ->
  firstRegistration req1 = firstRegistration req2 ->
  lookup REF_DATA req1 = lookup REF_DATA req2 /\
  valuation REF_DATA now req1 = valuation REF_DATA now req2.
Proof.
  intros Hmk Hmd Hm Hf.
  apply normalize_same_text in Hmk, Hmd.
  unfold lookup, valuation. rewrite Hmk, Hmd, Hm, Hf. split; reflexivity.
Qed.

Lemma C9_lookup_ignores_case_and_padding_witness :
  lookup fallback (mkRequest " Tesla " "MODEL 3" 45000 "2020-06-01") =
  lookup fallback (mkRequest "tesla" "model 3  " 45000 "2020-06-01") /\
  valuation fallback june_2024 (mkRequest " Tesla " "MODEL 3" 45000 "2020-06-01") =
  valuation fallback june_2024 (mkRequest "tesla" "model 3  " 45000 "2020-06-01").
Proof.
  apply C9_lookup_ignores_case_and_padding; try reflexivity.
  - exists " ", "Tesla", " ", EmptyString, "tesla", EmptyString. repeat split; reflexivity.
  - exists EmptyString, "MODEL 3", EmptyString, EmptyString, "model 3", "  ". repeat split; reflexivity.
Defined.

(** ** The catalog builder *)

Section Builder.

Local Open Scope Q_scope.



Lemma traverse_Forall2 {A B : Type} (f : A -> option B) (l : list A)
    (l' : list B) :
  traverse f l = Some l' -> Forall2 (fun a b => f a = Some b) l l'.
Proof.
  revert l'. induction l as [ | a l IH]; simpl; intros l' H.
  - injection H as <-. constructor.
  - destruct (f a) eqn:Ea; [ | discriminate].
    destruct (traverse f l); [ | discriminate].
    injection H as <-. constructor; [exact Ea | now apply IH].
Qed.

Lemma key_eqb_eq (a b : key) : key_eqb a b = true <-> a = b.
Proof.
  destruct a as [a1 a2], b as [b1 b2]. unfold key_eqb. simpl.
  rewrite andb_true_iff, !String.eqb_eq. split.
  - now intros [-> ->].
  - intros E. now injection E.
Qed.

Lemma existsb_key (k : key) (l : list key) :
  existsb (key_eqb k) l = true <-> In k l.
Proof.
  rewrite existsb_exists. split.
  - intros (x & Hx & E). apply key_eqb_eq in E. now subst.
  - intros H. exists k. split; [exact H | now apply key_eqb_eq].
Qed.

Lemma In_distinct (k : key) (l : list key) : In k (distinct l) <-> In k l.
Proof.
  induction l as [ | h l IH]; simpl; [tauto | ].
  destruct (existsb (key_eqb h) l) eqn:E.
  - rewrite IH. split; [tauto | ].
    intros [<- | H]; [now apply existsb_key | exact H].
  - simpl. now rewrite IH.
Qed.

Lemma NoDup_distinct (l : list key) : NoDup (distinct l).
Proof.
  induction l as [ | h l IH]; simpl; [constructor | ].
  destruct (existsb (key_eqb h) l) eqn:E; [exact IH | ].
  constructor; [ | exact IH].
  rewrite In_distinct, <- existsb_key. now rewrite E.
Qed.

Lemma insert_key_perm (k : key) (l : list key) :
  Permutation (insert_key k l) (k :: l).
Proof.
  induction l as [ | h l IH]; simpl; [reflexivity | ].
  destruct (key_leb k h); [reflexivity | ].
  rewrite IH. apply perm_swap.
Qed.

Lemma sort_keys_perm (l : list key) : Permutation (sort_keys l) l.
Proof.
  induction l as [ | h l IH]; simpl; [reflexivity | ].
  now rewrite insert_key_perm, IH.
Qed.

Lemma In_group_keys (k : key) (sales : list sale) :
  In k (group_keys sales) <-> In k (map key_of sales).
Proof.
  unfold group_keys. rewrite <- (In_distinct k (map key_of sales)).
  split; apply Permutation_in;
    [apply sort_keys_perm | symmetry; apply sort_keys_perm].
Qed.

Lemma NoDup_group_keys (sales : list sale) : NoDup (group_keys sales).
Proof.
  unfold group_keys.
  eapply Permutation_NoDup; [symmetry; apply sort_keys_perm | ].
  apply NoDup_distinct.
Qed.

Lemma aggregate_keys (has_year : bool) (sales : list sale) :
  map archetype_key (aggregate has_year sales) = group_keys sales.
Proof.
  unfold aggregate. rewrite map_map.
  rewrite <- (map_id (group_keys sales)) at 2.
  apply map_ext. now intros [a b].
Qed.

Lemma set_year0_keys (y : Q) (cat : catalog) :
  map archetype_key (map (set_year0 y) cat) = map archetype_key cat.
Proof. rewrite map_map. now apply map_ext. Qed.

(** The sorted list that [median] reads is a sorted rearrangement of the
    group. *)
Lemma insert_q_perm (x : Q) (l : list Q) : Permutation (insert_q x l) (x :: l).
Proof.
  induction l as [ | h l IH]; simpl; [reflexivity | ].
  destruct (Qle_bool x h); [reflexivity | ].
  rewrite IH. apply perm_swap.
Qed.

Lemma sort_q_perm (l : list Q) : Permutation (sort_q l) l.
Proof.
  induction l as [ | h l IH]; simpl; [reflexivity | ].
  now rewrite insert_q_perm, IH.
Qed.

Lemma insert_q_ascending (x : Q) (l : list Q) :
  ascending l -> ascending (insert_q x l).
Proof.
  induction 1 as [ | y | y z l Hyz Hl IH]; simpl.
  - constructor.
  - destruct (Qle_bool x y) eqn:E.
    + constructor; [now apply Qle_bool_iff | constructor].
    + constructor; [ | constructor].
      apply Qlt_le_weak, Qnot_le_lt. rewrite <- Qle_bool_iff. now rewrite E.
  - destruct (Qle_bool x y) eqn:E.
    + constructor; [now apply Qle_bool_iff | now constructor].
    + simpl in IH. destruct (Qle_bool x z) eqn:E'.
      * constructor; [ | exact IH].
        apply Qlt_le_weak, Qnot_le_lt. rewrite <- Qle_bool_iff. now rewrite E.
      * now constructor.
Qed.

Lemma sort_q_ascending (l : list Q) : ascending (sort_q l).
Proof.
  induction l as [ | h l IH]; simpl; [constructor | ].
  now apply insert_q_ascending.
Qed.


Lemma sale_row_inv (cols : list string) (has_year : bool) (row : list cell)
    (s : sale) :
  sale_row cols has_year row = Some s ->
  row_key cols row = Some (key_of s) /\
  num_at cols row "price" = Some (price s) /\
  (if has_year
   then exists y, num_at cols row "registration_year" = Some y /\
                  registration_year s = Some y
   else registration_year s = None).
Proof.
  unfold sale_row, row_key.
  destruct (str_at cols row "make") as [mk | ]; [ | discriminate].
  destruct (str_at cols row "model") as [md | ]; [ | discriminate].
  destruct (num_at cols row "price") as [p | ]; [ | discriminate].
  destruct has_year.
  - destruct (num_at cols row "registration_year") as [y | ]; [ | discriminate].
    intros E. injection E as <-. repeat split. now exists y.
  - intros E. injection E as <-. repeat split.
Qed.

Section Groups.

Variable cols : list string.
Variable has_year : bool.
Variable rws : list (list cell).
Variable sales : list sale.
Hypothesis Hsales : traverse (sale_row cols has_year) rws = Some sales.

Lemma sales_keys (k : key) :
  In k (map key_of sales) <->
  exists row, In row rws /\ row_key cols row = Some k.
Proof.
  apply traverse_Forall2 in Hsales.
  induction Hsales as [ | row s rws' sales' Hrow _ IH]; simpl.
  - split; [tauto | now intros (? & [] & _)].
  - apply sale_row_inv in Hrow as (Hk & _ & _). rewrite IH. split.
    + intros [<- | (row' & Hin & E)].
      * exists row. now split; [left | ].
      * exists row'. now split; [right | ].
    + intros (row' & [<- | Hin] & E).
      * left. congruence.
      * right. now exists row'.
Qed.




End Groups.




(** What the builder makes of the sample of sales: two groups, listed by
    make, with the medians 30500 and 2019.5 for the two Teslas. *)
Example load_sales_table :
  _load_dataset sales_table =
  Some [ mkArchetype "nissan" "leaf" 10000 2018;
         mkArchetype "tesla" "model 3" (61000 # 2) (4039 # 2) ].
Proof. reflexivity. Qed.





Lemma Forall2_In_r {A B : Type} (R : A -> B -> Prop) (l : list A)
    (l' : list B) (b : B) :
  Forall2 R l l' -> In b l' -> exists a, In a l /\ R a b.
Proof.
  induction 1 as [ | a b' l l' Hab _ IH]; simpl; [contradiction | ].
  intros [<- | Hin].
  - exists a. now split; [left | ].
  - destruct (IH Hin) as (a' & Ha' & HR). exists a'. now split; [right | ].
Qed.

(** Every key of a catalog that the builder returns is in normal form:
    a request is compared with trimmed, lower-case makes and models. *)
Lemma loaded_keys_normalized (df : DataFrame) (cat : catalog) (a : archetype) :
  _load_dataset df = Some cat -> In a cat ->
  normalize (make a) = make a /\ normalize (model a) = model a.
Proof.
  unfold _load_dataset.
  set (cols := normalize_columns (columns df)).
  destruct (issubset canonical_columns cols).
  - intros H Ha. apply traverse_Forall2 in H.
    destruct (Forall2_In_r _ _ _ _ H Ha) as (row & _ & Hrow).
    unfold canonical_row in Hrow.
    destruct (str_at cols row "make"); [ | discriminate].
    destruct (str_at cols row "model"); [ | discriminate].
    destruct (num_at cols row "base_price"); [ | discriminate].
    destruct (num_at cols row "year0"); [ | discriminate].
    injection Hrow as <-. simpl. split; apply normalize_idempotent.
  - destruct (issubset transactional_columns cols).
    + set (has_year := existsb (String.eqb "registration_year") cols).
      destruct (traverse (sale_row cols has_year) (rows df)) as [sales | ] eqn:Hs;
        [ | discriminate].
      intros H Ha. injection H as <-.
      assert (In (archetype_key a) (group_keys sales)) as Hk.
      { rewrite <- (aggregate_keys has_year).
        destruct has_year.
        - now apply in_map.
        - rewrite <- (set_year0_keys 2020). now apply in_map. }
      apply In_group_keys, in_map_iff in Hk as (s & Hk & Hin).
      apply traverse_Forall2 in Hs.
      destruct (Forall2_In_r _ _ _ _ Hs Hin) as (row & _ & Hrow).
      unfold sale_row in Hrow.
      destruct (str_at cols row "make"); [ | discriminate].
      destruct (str_at cols row "model"); [ | discriminate].
      destruct (num_at cols row "price"); [ | discriminate].
      assert (sale_make s = normalize s0 /\ sale_model s = normalize s1) as [E1 E2].
      { destruct has_year;
          [destruct (num_at cols row "registration_year"); [ | discriminate] | ];
          injection Hrow as <-; split; reflexivity. }
      unfold archetype_key, key_of in Hk. injection Hk as Hmk Hmd.
      rewrite <- Hmk, <- Hmd, E1, E2. split; apply normalize_idempotent.
    + intros H Ha. injection H as <-.
      simpl in Ha. repeat destruct Ha as [<- | Ha]; try contradiction;
        split; reflexivity.
Qed.

End Builder.

(** ** A worked valuation *)

Section Scenario.

Local Open Scope R_scope.

(** The tesla / model 3 of 2019 at 28000, registered in June 2020 with
    45000 km and valued in June 2024: four years at 0.93 a year and 4.5
    blocks of 10000 km give 19531.64; one year off the vintage and 0.225
    for the mileage give the confidence 0.615, rounded to 0.62. *)
Example valuation_scenario :
  valuation scenario_catalog june_2024 scenario_request =
  Ok (mkResponse 19531.64 "EUR" (Some 0.62)).
Proof.
  rewrite (valuation_match scenario_catalog june_2024 scenario_request
             (mkArchetype "tesla" "model 3" 28000 2019) []
             (mkDate 2020 6 1)) by reflexivity.
  rewrite (years_since_parsed june_2024 scenario_request (mkDate 2020 6 1))
    by reflexivity.
  cbn [base_price year0 mileageKm scenario_request year month june_2024].
  change ((2024 - 2020) * 12 + (6 - 6))%Z with 48%Z.
  change (Z.abs (2020 - int_of 2019)) with 1%Z.
  assert (Rmax 0 (IZR 48 / 12) = INR 4) as ->.
  { rewrite Rmax_right by lra. simpl. lra. }
  do 2 f_equal.
  - unfold depreciated, ANNUAL_DEPRECIATION, PER_10K_DEPRECIATION,
      MILEAGE_BUCKET, MIN_RETENTION.
    rewrite Rpower_pow by lra. simpl pow.
    rewrite clamp_inside by lra.
    replace 19531.64 with (IZR 1953164 / 100) by lra.
    apply round2_unique. lra.
  - f_equal. unfold confidence_of.
    rewrite Rmin_right by lra. rewrite clamp_inside by lra.
    unfold round2.
    replace ((0.9 - 1 * 0.06 - 45000 / 200000) * 100) with (IZR 61 + 1 / 2) by lra.
    rewrite round_half_even_tie. simpl. lra.
Qed.

End Scenario.

(** * Further properties *)

(** ** The valuation engine *)

Section ValuationMore.

Local Open Scope R_scope.

Lemma lookup_singleton (REF_DATA : catalog) (req : ValuationRequest) (row : archetype)
    (rest : catalog) :
  lookup REF_DATA req = row :: rest -> lookup [row] req = [row].
Proof.
  unfold lookup, select. intros H.
  assert (In row (filter (fun r => String.eqb (make r) (normalize (req_make req))
                                   && String.eqb (model r) (normalize (req_model req)))
                    REF_DATA)) as Hin by (rewrite H; now left).
  apply filter_In in Hin as [_ Hp]. simpl. now rewrite Hp.
Qed.

Lemma Q2R_nonneg (q : Q) : (0 <= q)%Q -> 0 <= Q2R q.
Proof.
  intros H. replace 0 with (Q2R 0) by (unfold Q2R; simpl; lra).
  now apply Qle_Rle.
Qed.

Lemma round2_is_hundredths (x : R) : exists z : Z, round2 x = IZR z / 100.
Proof. now exists (round_half_even (x * 100)). Qed.


(** X2: every response carries the currency EUR, a confidence that is
    present, lies in [0.5, 0.9] and is a whole number of hundredths, and an
    estimate that is a whole number of hundredths. *)
Theorem X2_response_shape (REF_DATA : catalog) (now : datetime) (req : ValuationRequest)
    (r : ValuationResponse) :
  valuation REF_DATA now req = Ok r ->
  currency r = "EUR"%string /\
  (exists c, confidence r = Some c /\ 0.5 <= c <= 0.9 /\
             exists z : Z, c = IZR z / 100) /\
  (exists z : Z, estimate r = IZR z / 100).
Proof.
  destruct (lookup REF_DATA req) as [ | row rest] eqn:Hl.
  - rewrite (valuation_no_match _ now _ Hl). intros E. injection E as <-.
    cbn [currency confidence estimate]. split; [reflexivity | split].
    + exists 0.5. split; [reflexivity | split; [lra | exists 50%Z; lra]].
    + exists 1000000%Z. lra.
  - destruct (registration req) as [d | ] eqn:Hd.
    + rewrite (valuation_match _ now _ _ _ _ Hl Hd). intros E. injection E as <-.
      cbn [currency confidence estimate]. split; [reflexivity | split].
      * eexists. split; [reflexivity | split].
        -- apply round2_confidence_bounds, confidence_of_bounds.
        -- apply round2_is_hundredths.
      * apply round2_is_hundredths.
    + rewrite (valuation_match_unparseable _ now _ _ _ Hl Hd). discriminate.
Qed.

Lemma X2_response_shape_witness :
  currency (mkResponse 19531.64 "EUR" (Some 0.62)) = "EUR"%string /\
  (exists c, confidence (mkResponse 19531.64 "EUR" (Some 0.62)) = Some c /\
             0.5 <= c <= 0.9 /\ exists z : Z, c = IZR z / 100) /\
  (exists z : Z, estimate (mkResponse 19531.64 "EUR" (Some 0.62)) = IZR z / 100).
Proof.
  exact (X2_response_shape scenario_catalog june_2024 scenario_request _
           valuation_scenario).
Defined.

(** X3: when several rows of the catalog match, the first one decides: the
    outcome is the one that the catalog reduced to that row gives. *)
Theorem X3_first_match_decides (REF_DATA : catalog) (now : datetime)
    (req : ValuationRequest) (row : archetype) (rest : catalog) :
  lookup REF_DATA req = row :: rest ->
  valuation REF_DATA now req = valuation [row] now req.
Proof.
  intros Hl. pose proof (lookup_singleton _ _ _ _ Hl) as Hs.
  destruct (registration req) as [d | ] eqn:Hd.
  - rewrite (valuation_match _ now _ _ _ _ Hl Hd).
    now rewrite (valuation_match _ now _ _ _ _ Hs Hd).
  - rewrite (valuation_match_unparseable _ now _ _ _ Hl Hd).
    now rewrite (valuation_match_unparseable _ now _ _ _ Hs Hd).
Qed.

Lemma X3_first_match_decides_witness :
  valuation [ mkArchetype "tesla" "model 3" 28000 2019;
              mkArchetype "tesla" "model 3" 99000 2023 ]
    june_2024 scenario_request =
  valuation [mkArchetype "tesla" "model 3" 28000 2019]
    june_2024 scenario_request.
Proof.
  apply (X3_first_match_decides _ june_2024 scenario_request
           (mkArchetype "tesla" "model 3" 28000 2019)
           [mkArchetype "tesla" "model 3" 99000 2023]).
  reflexivity.
Defined.

Lemma substring_prefix_app (s t : string) :
  substring 0 (String.length s) (s ++ t) = s.
Proof.
  induction s as [ | c s IH]; simpl.
  - now destruct t.
  - now rewrite IH.
Qed.

Lemma substring_whole (s : string) : substring 0 (String.length s) s = s.
Proof.
  induction s as [ | c s IH]; simpl; [reflexivity | now rewrite IH].
Qed.

(** X4: only the first ten characters of [firstRegistration] count: what
    follows a ten-character text changes nothing. *)
Theorem X4_only_first_ten_characters (REF_DATA : catalog) (now : datetime)
    (req : ValuationRequest) (s t : string) :
  String.length s = 10%nat ->
  valuation REF_DATA now (with_registration req (s ++ t)) =
  valuation REF_DATA now (with_registration req s).
Proof.
  intros Hlen.
  assert (PyDate.prefix10 (s ++ t) = PyDate.prefix10 s) as Hp.
  { unfold PyDate.prefix10. rewrite <- Hlen.
    now rewrite substring_prefix_app, substring_whole. }
  unfold valuation, _years_since, parse_or_raise, with_registration.
  cbn [firstRegistration req_make req_model mileageKm]. now rewrite Hp.
Qed.

Lemma X4_only_first_ten_characters_witness :
  valuation scenario_catalog june_2024
    (with_registration scenario_request ("2020-06-01" ++ "T12:30:00Z")) =
  valuation scenario_catalog june_2024
    (with_registration scenario_request "2020-06-01").
Proof.
  apply X4_only_first_ten_characters. reflexivity.
Defined.

(** X5: the day of the month is ignored: two registration strings that
    parse to dates of the same year and month give the same outcome. *)
Theorem X5_day_of_month_ignored (REF_DATA : catalog) (now : datetime)
    (req : ValuationRequest) (s1 s2 : string) (d1 d2 : datetime) :
  registration (with_registration req s1) = Some d1 ->
  registration (with_registration req s2) = Some d2 ->
  year d1 = year d2 -> month d1 = month d2 ->
  valuation REF_DATA now (with_registration req s1) =
  valuation REF_DATA now (with_registration req s2).
Proof.
  unfold registration, with_registration. cbn [firstRegistration].
  intros H1 H2 Hy Hm.
  unfold valuation, _years_since, parse_or_raise.
  cbn [firstRegistration req_make req_model mileageKm].
  rewrite H1, H2.
  destruct (select REF_DATA _ _); [reflexivity | ].
  cbn [bind]. now rewrite Hy, Hm.
Qed.

Lemma X5_day_of_month_ignored_witness :
  valuation scenario_catalog june_2024
    (with_registration scenario_request "2020-06-01") =
  valuation scenario_catalog june_2024
    (with_registration scenario_request "2020-06-30").
Proof.
  apply (X5_day_of_month_ignored scenario_catalog june_2024 scenario_request
           "2020-06-01" "2020-06-30" (mkDate 2020 6 1) (mkDate 2020 6 30));
    reflexivity.
Defined.

Lemma year_factor_antitone (y1 y2 : R) :
  y1 <= y2 ->
  Rpower (1 - ANNUAL_DEPRECIATION) y2 <= Rpower (1 - ANNUAL_DEPRECIATION) y1.
Proof.
  intros H. unfold Rpower, ANNUAL_DEPRECIATION.
  assert (ln (1 - 0.07) < 0) as Hln.
  { rewrite <- ln_1. apply ln_increasing; lra. }
  destruct (Rle_lt_or_eq_dec _ _ H) as [Hlt | ->]; [ | lra].
  left. apply exp_increasing. nra.
Qed.

Lemma year_factor_le_1 (y : R) :
  0 <= y -> Rpower (1 - ANNUAL_DEPRECIATION) y <= 1.
Proof.
  intros H. pose proof (year_factor_antitone 0 y H) as Ha.
  unfold ANNUAL_DEPRECIATION in *. rewrite Rpower_O in Ha by lra. exact Ha.
Qed.






Lemma mileage_factor_le_1 (m : Z) :
  (0 <= m)%Z -> 1 - PER_10K_DEPRECIATION * (IZR m / IZR MILEAGE_BUCKET) <= 1.
Proof.
  intros H. apply IZR_le in H. unfold PER_10K_DEPRECIATION, MILEAGE_BUCKET. lra.
Qed.

(** Lines 170-176 with years and kilometres that are not negative: the
    upper bound of the clamp is never reached. *)
Lemma depreciated_le_base (bp years : R) (m : Z) :
  0 <= bp -> 0 <= years -> (0 <= m)%Z -> depreciated bp years m <= bp.
Proof.
  intros Hbp Hy Hm. unfold depreciated.
  pose proof (year_factor_pos years) as Hp.
  pose proof (year_factor_le_1 years Hy) as H1.
  pose proof (mileage_factor_le_1 m Hm) as Hmf.
  set (f := Rpower (1 - ANNUAL_DEPRECIATION) years) in *.
  set (mf := 1 - PER_10K_DEPRECIATION * (IZR m / IZR MILEAGE_BUCKET)) in *.
  unfold MIN_RETENTION.
  assert (0 <= bp * f <= bp) as [Hb1 Hb2] by (split; nra).
  assert (bp * f * mf <= bp) as Hraw.
  { destruct (Rle_dec 0 mf); nra. }
  unfold _clamp. apply Rmax_lub; [lra | ].
  eapply Rle_trans; [apply Rmin_r | exact Hraw].
Qed.

(** X7: for a request with a mileage that is not negative and a matched
    archetype whose base price is not negative, the estimate before
    rounding is at most the base price, so the response never exceeds the
    base price rounded to two decimals. *)
Theorem X7_estimate_at_most_base_price (REF_DATA : catalog) (now : datetime)
    (req : ValuationRequest) (row : archetype) (rest : catalog)
    (r : ValuationResponse) :
  lookup REF_DATA req = row :: rest ->
  (0 <= base_price row)%Q ->
  valid_request req ->
  valuation REF_DATA now req = Ok r ->
  depreciated (Q2R (base_price row))
    (_years_since now (firstRegistration req)) (mileageKm req)
  <= Q2R (base_price row) /\
  estimate r <= round2 (Q2R (base_price row)).
Proof.
  intros Hl Hbp Hv E. apply Q2R_nonneg in Hbp.
  pose proof (depreciated_le_base _ _ _ Hbp
                (years_since_nonneg now (firstRegistration req)) Hv) as Hle.
  split; [exact Hle | ].
  destruct (registration req) as [d | ] eqn:Hd.
  - rewrite (valuation_match _ now _ _ _ _ Hl Hd) in E. injection E as <-.
    cbn [estimate]. now apply round2_mono.
  - rewrite (valuation_match_unparseable _ now _ _ _ Hl Hd) in E. discriminate.
Qed.

Lemma X7_estimate_at_most_base_price_witness :
  depreciated (Q2R 28000)
    (_years_since june_2024 (firstRegistration scenario_request))
    (mileageKm scenario_request)
  <= Q2R 28000 /\
  estimate (mkResponse 19531.64 "EUR" (Some 0.62)) <= round2 (Q2R 28000).
Proof.
  apply (X7_estimate_at_most_base_price scenario_catalog june_2024
           scenario_request (mkArchetype "tesla" "model 3" 28000 2019) []).
  - reflexivity.
  - discriminate.
  - unfold valid_request. simpl. lia.
  - exact valuation_scenario.
Defined.



Lemma worn_valuation :
  valuation cents_catalog june_2024 worn_request =
  Ok (mkResponse 7840.09 "EUR" (Some 0.5)).
Proof.
  rewrite (valuation_match cents_catalog june_2024 worn_request
             (mkArchetype "tesla" "model 3" (2800033 # 100) 2024) []
             june_2024) by reflexivity.
  rewrite worn_request_years.
  cbn [base_price year0 mileageKm worn_request year june_2024].
  rewrite worn_request_confidence.
  do 2 f_equal.
  rewrite depreciated_at_zero, clamp_at_floor by lra.
  replace 7840.09 with (IZR 784009 / 100) by lra.
  apply round2_unique. lra.
Qed.




Lemma round2_half : round2 0.5 = 0.5.
Proof.
  replace 0.5 with (IZR 50 / 100) by lra. apply round2_hundredths.
Qed.



(** X10: from 80000 km on, every response has the confidence 0.5,
    whatever the archetype and the registration year. *)
Theorem X10_confidence_floor_from_80000_km (REF_DATA : catalog)
    (now : datetime) (req : ValuationRequest) (r : ValuationResponse) :
  (80000 <= mileageKm req)%Z ->
  valuation REF_DATA now req = Ok r ->
  confidence r = Some 0.5.
Proof.
  intros Hm E.
  destruct (lookup REF_DATA req) as [ | row rest] eqn:Hl.
  - rewrite (valuation_no_match _ now _ Hl) in E. now injection E as <-.
  - destruct (registration req) as [d | ] eqn:Hd.
    + rewrite (valuation_match _ now _ _ _ _ Hl Hd) in E. injection E as <-.
      cbn [confidence]. f_equal.
      transitivity (round2 0.5); [f_equal | apply round2_half].
      unfold confidence_of. apply clamp_at_floor; [ | lra].
      pose proof (Z.abs_nonneg (year d - int_of (year0 row))) as Hg.
      apply IZR_le in Hg, Hm.
      assert (0.4 <= Rmin 0.5 (IZR (mileageKm req) / 200000)) as Hmin
        by (apply Rmin_glb; lra).
      lra.
    + rewrite (valuation_match_unparseable _ now _ _ _ Hl Hd) in E.
      discriminate.
Qed.

Lemma X10_confidence_floor_from_80000_km_witness :
  confidence (mkResponse 7840.09 "EUR" (Some 0.5)) = Some 0.5.
Proof.
  apply (X10_confidence_floor_from_80000_km cents_catalog june_2024
           worn_request).
  - discriminate.
  - exact worn_valuation.
Defined.



(** X12: a car with 0 km whose registration month is the evaluation month
    or a later one is valued at the base price of the matched archetype,
    rounded, when that price is not negative. *)
Theorem X12_unused_new_car (REF_DATA : catalog) (now : datetime)
    (req : ValuationRequest) (row : archetype) (rest : catalog)
    (d : datetime) :
  lookup REF_DATA req = row :: rest ->
  registration req = Some d ->
  (0 <= base_price row)%Q ->
  (month_index now <= month_index d)%Z ->
  mileageKm req = 0%Z ->
  exists r, valuation REF_DATA now req = Ok r /\
            estimate r = round2 (Q2R (base_price row)).
Proof.
  intros Hl Hd Hbp Hn Hm. apply Q2R_nonneg in Hbp. eexists.
  split; [apply (valuation_match _ now _ _ _ _ Hl Hd) | ].
  cbn [estimate]. f_equal.
  rewrite (years_since_parsed now req d Hd), Hm.
  unfold month_index in Hn.
  assert ((year now - year d) * 12 + (month now - month d) <= 0)%Z as Hle by lia.
  apply IZR_le in Hle.
  rewrite Rmax_left by lra.
  rewrite depreciated_at_zero, clamp_inside by lra. lra.
Qed.

Lemma X12_unused_new_car_witness :
  exists r,
    valuation scenario_catalog june_2024
      (mkRequest "Tesla" "Model 3" 0 "2024-09-01") = Ok r /\
    estimate r = round2 (Q2R 28000).
Proof.
  apply (X12_unused_new_car scenario_catalog june_2024
           (mkRequest "Tesla" "Model 3" 0 "2024-09-01")
           (mkArchetype "tesla" "model 3" 28000 2019) [] (mkDate 2024 9 1)).
  - reflexivity.
  - reflexivity.
  - discriminate.
  - discriminate.
  - reflexivity.
Defined.

(** X13: [_clamp] is idempotent and never returns less than [lo]; when
    [lo <= hi] it leaves [v] unchanged exactly when [v] lies between the
    two bounds. *)
Theorem X13_clamp_fixed_points (v lo hi : R) :
  _clamp (_clamp v lo hi) lo hi = _clamp v lo hi /\
  lo <= _clamp v lo hi /\
  (lo <= hi -> (_clamp v lo hi = v <-> lo <= v <= hi)).
Proof.
  unfold _clamp, Rmax, Rmin.
  repeat match goal with
         | |- context [Rle_dec ?a ?b] =>
             lazymatch a with
             | context [Rle_dec] => fail
             | _ => lazymatch b with
                    | context [Rle_dec] => fail
                    | _ => destruct (Rle_dec a b)
                    end
             end
         end;
    repeat split; intros; try lra.
Qed.

Lemma X13_clamp_fixed_points_witness :
  _clamp (_clamp 3 1 2) 1 2 = _clamp 3 1 2 /\
  1 <= _clamp 3 1 2 /\
  (_clamp 3 1 2 = 3 <-> 1 <= 3 <= 2).
Proof.
  destruct (X13_clamp_fixed_points 3 1 2) as (A & B & C).
  split; [exact A | split; [exact B | apply C; lra]].
Defined.

End ValuationMore.

(** ** The listing endpoints *)

Section Listing.

Lemma In_unique_from (seen l : list string) (y : string) :
  In y (unique_from seen l) <-> In y l /\ ~ In y seen.
Proof.
  revert seen. induction l as [ | x l IH]; intros seen; simpl; [tauto | ].
  destruct (existsb (String.eqb x) seen) eqn:E.
  - rewrite IH. apply existsb_exists in E as (x' & Hin & Hx).
    apply String.eqb_eq in Hx. subst x'.
    split; [tauto | ]. intros [[<- | H] Hn]; [contradiction | tauto].
  - assert (~ In x seen) as Hx.
    { intros Hin. rewrite <- not_true_iff_false in E. apply E.
      apply existsb_exists. exists x. split; [exact Hin | apply String.eqb_refl]. }
    simpl. rewrite IH. simpl. split.
    + intros [<- | (H & Hn)]; [tauto | tauto].
    + intros [[<- | H] Hn]; [now left | ].
      destruct (string_dec x y) as [-> | Hne]; [now left | right; tauto].
Qed.

Lemma NoDup_unique_from (seen l : list string) : NoDup (unique_from seen l).
Proof.
  revert seen. induction l as [ | x l IH]; intros seen; simpl; [constructor | ].
  destruct (existsb (String.eqb x) seen); [apply IH | ].
  constructor; [ | apply IH].
  rewrite In_unique_from. simpl. tauto.
Qed.

Lemma length_unique_from (seen l : list string) :
  (List.length (unique_from seen l) <= List.length l)%nat.
Proof.
  revert seen. induction l as [ | x l IH]; intros seen; simpl; [lia | ].
  destruct (existsb (String.eqb x) seen).
  - specialize (IH seen). lia.
  - simpl. specialize (IH (x :: seen)). lia.
Qed.

Lemma In_unique (l : list string) (y : string) : In y (unique l) <-> In y l.
Proof. unfold unique. rewrite In_unique_from. simpl. tauto. Qed.

Lemma insert_str_perm (x : string) (l : list string) :
  Permutation (insert_str x l) (x :: l).
Proof.
  induction l as [ | h l IH]; simpl; [reflexivity | ].
  destruct (String.leb x h); [reflexivity | ].
  rewrite IH. apply perm_swap.
Qed.

Lemma sorted_perm (l : list string) : Permutation (sorted l) l.
Proof.
  induction l as [ | h l IH]; simpl; [reflexivity | ].
  now rewrite insert_str_perm, IH.
Qed.

Lemma In_sorted (l : list string) (y : string) : In y (sorted l) <-> In y l.
Proof.
  split; apply Permutation_in; [apply sorted_perm | symmetry; apply sorted_perm].
Qed.

Lemma leb_ne_ltb (x y : string) :
  String.leb x y = true -> x <> y -> String.ltb x y = true.
Proof.
  unfold String.leb, String.ltb. intros H Hne.
  destruct (String.compare x y) eqn:E; try reflexivity; try discriminate.
  apply String.compare_eq_iff in E. contradiction.
Qed.

Lemma not_leb_ltb (x y : string) :
  String.leb x y = false -> String.ltb y x = true.
Proof.
  unfold String.leb, String.ltb. rewrite (String.compare_antisym x y).
  destruct (String.compare y x); simpl; intros; try discriminate; reflexivity.
Qed.

Lemma insert_str_ascending (x : string) (l : list string) :
  strictly_ascending l -> ~ In x l -> strictly_ascending (insert_str x l).
Proof.
  induction 1 as [ | y | y z l Hyz Hl IH]; simpl; intros Hx.
  - constructor.
  - destruct (String.leb x y) eqn:E.
    + constructor; [ | constructor].
      apply leb_ne_ltb; [exact E | intros ->; apply Hx; now left].
    + constructor; [now apply not_leb_ltb | constructor].
  - destruct (String.leb x y) eqn:E.
    + constructor; [ | now constructor].
      apply leb_ne_ltb; [exact E | intros ->; apply Hx; now left].
    + assert (~ In x (z :: l)) as Hx' by (simpl in *; tauto).
      specialize (IH Hx'). simpl in IH.
      destruct (String.leb x z) eqn:E'.
      * constructor; [now apply not_leb_ltb | exact IH].
      * now constructor.
Qed.

Lemma sorted_ascending (l : list string) :
  NoDup l -> strictly_ascending (sorted l).
Proof.
  induction 1 as [ | x l Hx Hl IH]; simpl; [constructor | ].
  apply insert_str_ascending; [exact IH | now rewrite In_sorted].
Qed.

Lemma listing_ascending (l : list string) :
  strictly_ascending (sorted (unique l)) /\ NoDup (sorted (unique l)) /\
  (forall y, In y (sorted (unique l)) <-> In y l).
Proof.
  split; [apply sorted_ascending, NoDup_unique_from | split].
  - eapply Permutation_NoDup; [symmetry; apply sorted_perm | ].
    apply NoDup_unique_from.
  - intros y. now rewrite In_sorted, In_unique.
Qed.

(** X14: [get_makes] lists the makes of the catalog, each once, in
    strictly ascending order. *)
Theorem X14_get_makes (REF_DATA : catalog) :
  strictly_ascending (get_makes REF_DATA) /\
  NoDup (get_makes REF_DATA) /\
  (forall mk, In mk (get_makes REF_DATA) <->
              exists a, In a REF_DATA /\ make a = mk).
Proof.
  unfold get_makes.
  destruct (listing_ascending (map make REF_DATA)) as (A & B & C).
  split; [exact A | split; [exact B | ]].
  intros mk. rewrite C, in_map_iff. split; intros (a & H1 & H2); exists a; tauto.
Qed.

(** X15: [get_models] lists, each once and in strictly ascending order,
    the models of the rows whose make is the normal form of the given make;
    for a make that no row has, the list is empty. *)
Theorem X15_get_models (REF_DATA : catalog) (mk : string) :
  strictly_ascending (get_models REF_DATA mk) /\
  NoDup (get_models REF_DATA mk) /\
  (forall md, In md (get_models REF_DATA mk) <->
              exists a, In a REF_DATA /\ make a = normalize mk /\ model a = md) /\
  (get_models REF_DATA mk = [] <->
   forall a, In a REF_DATA -> make a <> normalize mk).
Proof.
  unfold get_models. cbv zeta.
  set (rows_of := filter (fun r => String.eqb (make r) (normalize mk)) REF_DATA).
  destruct (listing_ascending (map model rows_of)) as (A & B & C).
  assert (forall md, In md (sorted (unique (map model rows_of))) <->
            exists a, In a REF_DATA /\ make a = normalize mk /\ model a = md)
    as D.
  { intros md. rewrite C, in_map_iff. unfold rows_of. split.
    - intros (a & Hm & Hin). apply filter_In in Hin as [Hin Hk].
      apply String.eqb_eq in Hk. now exists a.
    - intros (a & Hin & Hk & Hm). exists a. split; [exact Hm | ].
      apply filter_In. split; [exact Hin | now apply String.eqb_eq]. }
  split; [exact A | split; [exact B | split; [exact D | ]]].
  split.
  - intros E a Hin Hk.
    assert (In (model a) (sorted (unique (map model rows_of)))) as H
      by (apply D; now exists a).
    rewrite E in H. contradiction.
  - intros H. destruct (sorted (unique (map model rows_of))) as [ | md l];
      [reflexivity | ].
    destruct (proj1 (D md)) as (a & Hin & Hk & _); [now left | ].
    now contradiction (H a Hin).
Qed.

(** X16: [get_models] ignores the letter case of the make and the
    whitespace around it. *)
Theorem X16_get_models_ignores_case_and_padding (REF_DATA : catalog)
    (mk1 mk2 : string) :
  same_text mk1 mk2 -> get_models REF_DATA mk1 = get_models REF_DATA mk2.
Proof.
  intros H. unfold get_models. now rewrite (normalize_same_text _ _ H).
Qed.

Lemma X16_get_models_ignores_case_and_padding_witness :
  get_models fallback " Tesla " = get_models fallback "tesla".
Proof.
  apply X16_get_models_ignores_case_and_padding.
  exists " ", "Tesla", " ", EmptyString, "tesla", EmptyString.
  repeat split; reflexivity.
Defined.

(** X17: in a catalog that [_load_dataset] returned, every make that
    [get_makes] lists has at least one model in [get_models], and every
    model listed there for it selects a row in [valuation]: a request
    spelled as the two listings spell it is never answered with the
    default for unknown vehicles. *)
Theorem X17_listed_vehicles_resolve (df : DataFrame) (REF_DATA : catalog)
    (mk md : string) (m : Z) (reg : string) :
  _load_dataset df = Some REF_DATA ->
  In mk (get_makes REF_DATA) ->
  get_models REF_DATA mk <> [] /\
  (In md (get_models REF_DATA mk) ->
   lookup REF_DATA (mkRequest mk md m reg) <> []).
Proof.
  intros Hload Hmk.
  destruct (listing_ascending (map make REF_DATA)) as (_ & _ & Cmk).
  unfold get_makes in Hmk. apply Cmk, in_map_iff in Hmk as (a & Ha & Hin).
  destruct (loaded_keys_normalized df REF_DATA a Hload Hin) as [Hna _].
  subst mk.
  set (rows_of := filter (fun r => String.eqb (make r) (normalize (make a)))
                    REF_DATA).
  destruct (listing_ascending (map model rows_of)) as (_ & _ & Cmd).
  fold rows_of in Cmd. unfold get_models. cbv zeta. fold rows_of.
  assert (In a rows_of) as Harow.
  { apply filter_In. split; [exact Hin | ]. rewrite Hna. apply String.eqb_refl. }
  split.
  - intros E.
    assert (In (model a) (sorted (unique (map model rows_of)))) as H
      by (apply Cmd, in_map; exact Harow).
    rewrite E in H. contradiction.
  - intros Hmd. apply Cmd, in_map_iff in Hmd as (b & Hb & Hbin).
    apply filter_In in Hbin as [Hbin Hbk]. apply String.eqb_eq in Hbk.
    destruct (loaded_keys_normalized df REF_DATA b Hload Hbin) as [_ Hnb].
    subst md. intros E.
    assert (In b (lookup REF_DATA (mkRequest (make a) (model b) m reg))) as H.
    { unfold lookup, select. cbn [req_make req_model]. apply filter_In.
      split; [exact Hbin | ].
      rewrite Hnb, Hbk. now rewrite !String.eqb_refl. }
    rewrite E in H. contradiction.
Qed.


Lemma X17_listed_vehicles_resolve_witness :
  get_models fallback "tesla" <> [] /\
  (In "model y"%string (get_models fallback "tesla") ->
   lookup fallback (mkRequest "tesla" "model y" 30000 "2022-01-01") <> []).
Proof.
  apply (X17_listed_vehicles_resolve unknown_table fallback).
  - reflexivity.
  - right. left. reflexivity.
Defined.

(** X18: [health] reports the number of rows of the catalog, which is at
    least the number of makes that [get_makes] lists and is zero exactly
    when that list is empty. *)
Theorem X18_health_counts_rows (REF_DATA : catalog) :
  status (health REF_DATA) = "ok"%string /\
  records (health REF_DATA) = Z.of_nat (List.length REF_DATA) /\
  (Z.of_nat (List.length (get_makes REF_DATA)) <= records (health REF_DATA))%Z /\
  (records (health REF_DATA) = 0%Z <-> get_makes REF_DATA = []).
Proof.
  unfold health. cbn [status records].
  assert (List.length (get_makes REF_DATA) <= List.length REF_DATA)%nat as Hlen.
  { unfold get_makes. rewrite (Permutation_length (sorted_perm _)).
    unfold unique. etransitivity; [apply length_unique_from | ].
    now rewrite length_map. }
  split; [reflexivity | split; [reflexivity | split; [lia | ]]].
  split.
  - intros H. destruct (get_makes REF_DATA); [reflexivity | simpl in Hlen; lia].
  - intros H. destruct REF_DATA as [ | a l]; [reflexivity | ].
    assert (In (make a) (get_makes (a :: l))) as Hin.
    { unfold get_makes. apply In_sorted, In_unique. now left. }
    rewrite H in Hin. contradiction.
Qed.

End Listing.

(** ** The catalog builder, continued *)

Section BuilderMore.

Local Open Scope Q_scope.

Lemma normalize_columns_same_text (c1 c2 : list string) :
  Forall2 same_text c1 c2 -> normalize_columns c1 = normalize_columns c2.
Proof.
  unfold normalize_columns.
  induction 1 as [ | x y l l' Hxy _ IH]; simpl; [reflexivity | ].
  fold (normalize x) (normalize y).
  now rewrite (normalize_same_text _ _ Hxy), IH.
Qed.

(** X19: the header is read ignoring the letter case of the column names
    and the whitespace around them: two tables with the same rows whose
    column names differ only in that way yield the same catalog. *)
Theorem X19_header_ignores_case_and_padding (df1 df2 : DataFrame) :
  Forall2 same_text (columns df1) (columns df2) ->
  rows df1 = rows df2 ->
  _load_dataset df1 = _load_dataset df2.
Proof.
  intros Hc Hr. unfold _load_dataset.
  now rewrite (normalize_columns_same_text _ _ Hc), Hr.
Qed.

Lemma X19_header_ignores_case_and_padding_witness :
  _load_dataset sales_table = _load_dataset shouting_table.
Proof.
  apply X19_header_ignores_case_and_padding; [ | reflexivity].
  repeat constructor.
  - exists " ", "Make", EmptyString, EmptyString, "MAKE", EmptyString.
    repeat split; reflexivity.
  - exists EmptyString, "MODEL", " ", " ", "Model", " ".
    repeat split; reflexivity.
  - exists EmptyString, "Price", EmptyString, EmptyString, "PRICE", EmptyString.
    repeat split; reflexivity.
  - exists EmptyString, "Registration_Year", EmptyString,
      " ", "Registration_Year", EmptyString.
    repeat split; reflexivity.
Defined.

Lemma canonical_row_key (cols : list string) (row : list cell) (a : archetype) :
  canonical_row cols row = Some a ->
  row_key cols row = Some (archetype_key a) /\
  num_at cols row "base_price" = Some (base_price a) /\
  num_at cols row "year0" = Some (year0 a).
Proof.
  unfold canonical_row, row_key.
  destruct (str_at cols row "make"); [ | discriminate].
  destruct (str_at cols row "model"); [ | discriminate].
  destruct (num_at cols row "base_price"); [ | discriminate].
  destruct (num_at cols row "year0"); [ | discriminate].
  intros E. injection E as <-. repeat split.
Qed.

Lemma Forall2_In_l {A B : Type} (R : A -> B -> Prop) (l : list A)
    (l' : list B) (a : A) :
  Forall2 R l l' -> In a l -> exists b, In b l' /\ R a b.
Proof.
  induction 1 as [ | a' b l l' Hab _ IH]; simpl; [contradiction | ].
  intros [<- | Hin].
  - exists b. now split; [left | ].
  - destruct (IH Hin) as (b' & Hb' & HR). exists b'. now split; [right | ].
Qed.

(** The keys of a catalog built from a recognized table are the normalized
    keys of the rows of the table. *)
Lemma loaded_keys (df : DataFrame) (cat : catalog) (k : key) :
  recognized df = true ->
  _load_dataset df = Some cat ->
  In k (map archetype_key cat) <->
  exists row, In row (rows df) /\
              row_key (normalize_columns (columns df)) row = Some k.
Proof.
  unfold recognized, _load_dataset.
  set (cols := normalize_columns (columns df)).
  destruct (issubset canonical_columns cols).
  - intros _ H. apply traverse_Forall2 in H. rewrite in_map_iff. split.
    + intros (a & <- & Ha).
      destruct (Forall2_In_r _ _ _ _ H Ha) as (row & Hrow & Hc).
      exists row. split; [exact Hrow | now apply canonical_row_key].
    + intros (row & Hrow & Hk).
      destruct (Forall2_In_l _ _ _ _ H Hrow) as (a & Ha & Hc).
      exists a. split; [ | exact Ha].
      apply canonical_row_key in Hc as (Hk' & _). congruence.
  - rewrite orb_false_l. intros Ht. rewrite Ht.
    set (has_year := existsb (String.eqb "registration_year") cols).
    destruct (traverse (sale_row cols has_year) (rows df)) as [sales | ] eqn:Hs;
      [ | discriminate].
    intros H. injection H as <-. cbv zeta.
    rewrite <- (sales_keys cols has_year (rows df) sales Hs k).
    rewrite <- In_group_keys.
    destruct has_year; [ | rewrite set_year0_keys];
      now rewrite aggregate_keys.
Qed.

Lemma lookup_nonempty (cat : catalog) (req : ValuationRequest) :
  lookup cat req <> [] <->
  In (normalize (req_make req), normalize (req_model req))
     (map archetype_key cat).
Proof.
  unfold lookup, select. rewrite in_map_iff. split.
  - intros H.
    destruct (filter _ cat) as [ | a l] eqn:E; [now contradiction H | ].
    assert (In a (a :: l)) as Hin by now left.
    rewrite <- E in Hin. apply filter_In in Hin as [Hin Hp].
    apply andb_true_iff in Hp as [H1 H2].
    apply String.eqb_eq in H1, H2.
    exists a. split; [ | exact Hin]. unfold archetype_key. now rewrite H1, H2.
  - intros (a & Hk & Hin) E. unfold archetype_key in Hk. injection Hk as H1 H2.
    assert (In a (filter (fun r => String.eqb (make r) (normalize (req_make req))
                                   && String.eqb (model r) (normalize (req_model req)))
                    cat)) as H.
    { apply filter_In. split; [exact Hin | ].
      now rewrite H1, H2, !String.eqb_refl. }
    rewrite E in H. contradiction.
Qed.

(** X20: in a catalog built from a table with one of the two column
    sets, a request selects a row exactly when some row of the table has
    its normalized make and model: every vehicle of the table is found
    under any spelling that differs in case or padding, and nothing else
    is. *)
Theorem X20_lookup_finds_table_rows (df : DataFrame) (REF_DATA : catalog)
    (req : ValuationRequest) :
  recognized df = true ->
  _load_dataset df = Some REF_DATA ->
  lookup REF_DATA req <> [] <->
  exists row, In row (rows df) /\
              row_key (normalize_columns (columns df)) row =
              Some (normalize (req_make req), normalize (req_model req)).
Proof.
  intros Hr Hl. rewrite lookup_nonempty. now apply loaded_keys.
Qed.

Lemma X20_lookup_finds_table_rows_witness :
  lookup negative_catalog (mkRequest "TESLA" " model 3" 10 "2024-01-01") <> [] <->
  exists row, In row (rows negative_table) /\
              row_key (normalize_columns (columns negative_table)) row =
              Some (normalize "TESLA", normalize " model 3").
Proof.
  apply (X20_lookup_finds_table_rows negative_table negative_catalog
           (mkRequest "TESLA" " model 3" 10 "2024-01-01")); reflexivity.
Defined.


Lemma traverse_app_inv {A B : Type} (f : A -> option B) (l1 l2 : list A)
    (l' : list B) :
  traverse f (l1 ++ l2)%list = Some l' ->
  exists l1' l2', l' = (l1' ++ l2')%list /\
                  traverse f l1 = Some l1' /\ traverse f l2 = Some l2'.
Proof.
  revert l'. induction l1 as [ | a l1 IH]; simpl; intros l' H.
  - exists [], l'. now repeat split.
  - destruct (f a) as [b | ]; [ | discriminate].
    destruct (traverse f (l1 ++ l2)%list) as [bs | ] eqn:E; [ | discriminate].
    injection H as <-.
    destruct (IH bs eq_refl) as (l1' & l2' & -> & H1 & H2).
    exists (b :: l1'), l2'. rewrite H1. now repeat split.
Qed.

(** X21: with the reference columns, rows that repeat a make and model
    are all kept, in table order, and a request is valued with the first
    of them: its base price and vintage are the numbers of the first row
    of the table that has the requested key, unchanged. *)
Theorem X21_first_table_row_wins (df : DataFrame) (REF_DATA : catalog)
    (req : ValuationRequest) (pre post : list (list cell)) (row : list cell)
    (p y : Q) :
  let cols := normalize_columns (columns df) in
  let k := (normalize (req_make req), normalize (req_model req)) in
  issubset canonical_columns cols = true ->
  _load_dataset df = Some REF_DATA ->
  rows df = (pre ++ row :: post)%list ->
  (forall r, In r pre -> row_key cols r <> Some k) ->
  row_key cols row = Some k ->
  num_at cols row "base_price" = Some p ->
  num_at cols row "year0" = Some y ->
  exists rest,
    lookup REF_DATA req = mkArchetype (fst k) (snd k) p y :: rest.
Proof.
  intros cols k Hc Hl Hrows Hpre Hk Hp Hy.
  unfold _load_dataset in Hl. fold cols in Hl. rewrite Hc, Hrows in Hl.
  apply traverse_app_inv in Hl as (cpre & ctail & -> & Hcpre & Htail).
  simpl in Htail.
  destruct (canonical_row cols row) as [a | ] eqn:Ha; [ | discriminate].
  destruct (traverse (canonical_row cols) post) as [cpost | ]; [ | discriminate].
  injection Htail as <-.
  apply canonical_row_key in Ha as (Hka & Hpa & Hya).
  assert (a = mkArchetype (fst k) (snd k) p y) as ->.
  { destruct a as [mk md bp y0]. unfold archetype_key, k in *.
    cbn [make model base_price year0 fst snd] in *.
    rewrite Hk in Hka. injection Hka as H1 H2.
    rewrite Hp in Hpa. injection Hpa as H3.
    rewrite Hy in Hya. injection Hya as H4.
    now rewrite H1, H2, H3, H4. }
  unfold lookup, select. rewrite filter_app.
  assert (filter (fun r => String.eqb (make r) (normalize (req_make req))
                           && String.eqb (model r) (normalize (req_model req)))
            cpre = []) as ->.
  { apply traverse_Forall2 in Hcpre.
    destruct (filter _ cpre) as [ | b l] eqn:E; [reflexivity | exfalso].
    assert (In b (b :: l)) as Hin by now left.
    rewrite <- E in Hin. apply filter_In in Hin as [Hin Hb].
    apply andb_true_iff in Hb as [H1 H2]. apply String.eqb_eq in H1, H2.
    destruct (Forall2_In_r _ _ _ _ Hcpre Hin) as (r & Hr & Hcr).
    apply canonical_row_key in Hcr as (Hkr & _).
    apply (Hpre r Hr). rewrite Hkr. unfold archetype_key, k. now rewrite H1, H2. }
  simpl. rewrite !String.eqb_refl. simpl. eexists. reflexivity.
Qed.

Lemma X21_first_table_row_wins_witness :
  exists rest,
    lookup
      [ mkArchetype "tesla" "model 3" 28000 2019;
        mkArchetype "nissan" "leaf" 12000 2018;
        mkArchetype "tesla" "model 3" 99000 2023 ] scenario_request =
    mkArchetype "tesla" "model 3" 28000 2019 :: rest.
Proof.
  apply (X21_first_table_row_wins duplicated_table _ scenario_request []
           [ [CStr "Nissan"; CStr "Leaf"; CNum 12000; CNum 2018];
             [CStr "tesla "; CStr " model 3"; CNum 99000; CNum 2023] ]
           [CStr "Tesla"; CStr "Model 3"; CNum 28000; CNum 2019]);
    try reflexivity.
  intros r [].
Defined.

Lemma filter_key_unique (cat : catalog) (mk md : string) :
  NoDup (map archetype_key cat) ->
  (List.length (select cat mk md) <= 1)%nat.
Proof.
  unfold select. induction cat as [ | a cat IH]; simpl; intros H; [lia | ].
  inversion H as [ | ? ? Hnotin Hnd]; subst.
  destruct (String.eqb (make a) mk && String.eqb (model a) md) eqn:E.
  - apply andb_true_iff in E as [H1 H2]. apply String.eqb_eq in H1, H2.
    assert (filter (fun r => String.eqb (make r) mk && String.eqb (model r) md)
              cat = []) as ->; [ | simpl; lia].
    destruct (filter _ cat) as [ | b l] eqn:Eb; [reflexivity | exfalso].
    assert (In b (b :: l)) as Hin by now left.
    rewrite <- Eb in Hin. apply filter_In in Hin as [Hin Hb].
    apply andb_true_iff in Hb as [H3 H4]. apply String.eqb_eq in H3, H4.
    apply Hnotin. apply in_map_iff. exists b. split; [ | exact Hin].
    unfold archetype_key. congruence.
  - now apply IH.
Qed.

(** X22: with the transactional columns, the aggregated catalog has at
    most one row for a request: [match.iloc[0]] is the only row that
    matches. *)
Theorem X22_transactional_lookup_unique (df : DataFrame) (REF_DATA : catalog)
    (req : ValuationRequest) :
  let cols := normalize_columns (columns df) in
  issubset canonical_columns cols = false ->
  issubset transactional_columns cols = true ->
  _load_dataset df = Some REF_DATA ->
  (List.length (lookup REF_DATA req) <= 1)%nat.
Proof.
  intros cols Hc Ht Hl. unfold lookup. apply filter_key_unique.
  unfold _load_dataset in Hl. fold cols in Hl. rewrite Hc, Ht in Hl.
  set (has_year := existsb (String.eqb "registration_year") cols) in *.
  destruct (traverse (sale_row cols has_year) (rows df)) as [sales | ];
    [ | discriminate].
  injection Hl as <-.
  destruct has_year; [ | rewrite set_year0_keys];
    rewrite aggregate_keys; apply NoDup_group_keys.
Qed.

Lemma X22_transactional_lookup_unique_witness :
  (List.length
     (lookup [ mkArchetype "nissan" "leaf" 10000 2018;
               mkArchetype "tesla" "model 3" (61000 # 2) (4039 # 2) ]
        scenario_request) <= 1)%nat.
Proof.
  apply (X22_transactional_lookup_unique sales_table); reflexivity.
Defined.


Lemma Qmean_bounds (lo hi x y : Q) :
  lo <= x <= hi -> lo <= y <= hi -> lo <= (x + y) / 2 <= hi.
Proof.
  intros [H1 H2] [H3 H4]. split.
  - apply Qle_shift_div_l; [reflexivity | ].
    setoid_replace (lo * 2) with (lo + lo) by ring.
    now apply Qplus_le_compat.
  - apply Qle_shift_div_r; [reflexivity | ].
    setoid_replace (hi * 2) with (hi + hi) by ring.
    now apply Qplus_le_compat.
Qed.

(** The median of a group that is not empty lies between any two bounds
    of its values. *)
Lemma median_bounds (l : list Q) (lo hi : Q) :
  l <> [] -> (forall x, In x l -> lo <= x <= hi) -> lo <= median l <= hi.
Proof.
  intros Hne Hall. unfold median.
  pose proof (sort_q_perm l) as Hperm.
  set (s := sort_q l) in *.
  assert (0 < List.length s)%nat as Hlen.
  { rewrite (Permutation_length Hperm). destruct l; [congruence | simpl; lia]. }
  assert (forall i, (i < List.length s)%nat -> lo <= nth i s 0 <= hi) as Hnth.
  { intros i Hi. apply Hall. apply (Permutation_in _ Hperm). now apply nth_In. }
  assert (List.length s / 2 < List.length s)%nat as Hhalf
    by (apply Nat.div_lt; lia).
  destruct (Nat.even (List.length s)).
  - apply Qmean_bounds; apply Hnth; lia.
  - now apply Hnth.
Qed.

Lemma members_nonempty (k : key) (sales : list sale) :
  In k (group_keys sales) -> members k sales <> [].
Proof.
  rewrite In_group_keys, in_map_iff. intros (s & Hk & Hin) E.
  assert (In s (members k sales)) as H.
  { unfold members. apply filter_In. split; [exact Hin | now apply key_eqb_eq]. }
  rewrite E in H. contradiction.
Qed.

(** X23: with the transactional columns, the aggregated base price of
    every catalog row lies between any two bounds of the prices of the
    table; so it is positive when all the prices are. *)
Theorem X23_aggregated_price_in_range (df : DataFrame) (REF_DATA : catalog)
    (a : archetype) (lo hi : Q) :
  let cols := normalize_columns (columns df) in
  issubset canonical_columns cols = false ->
  issubset transactional_columns cols = true ->
  _load_dataset df = Some REF_DATA ->
  (forall row p, In row (rows df) -> num_at cols row "price" = Some p ->
                 lo <= p <= hi) ->
  In a REF_DATA ->
  lo <= base_price a <= hi.
Proof.
  intros cols Hc Ht Hl Hall Ha.
  unfold _load_dataset in Hl. fold cols in Hl. rewrite Hc, Ht in Hl.
  set (has_year := existsb (String.eqb "registration_year") cols) in *.
  destruct (traverse (sale_row cols has_year) (rows df)) as [sales | ] eqn:Hs;
    [ | discriminate].
  injection Hl as <-.
  assert (exists k, In k (group_keys sales) /\
                    base_price a = median (map price (members k sales)))
    as (k & Hk & ->).
  { destruct has_year.
    - unfold aggregate in Ha. apply in_map_iff in Ha as (k & <- & Hk).
      now exists k.
    - apply in_map_iff in Ha as (a' & <- & Ha').
      unfold aggregate in Ha'. apply in_map_iff in Ha' as (k & <- & Hk).
      now exists k. }
  apply median_bounds.
  - pose proof (members_nonempty k sales Hk) as Hne.
    destruct (members k sales); [congruence | discriminate].
  - intros x Hx. apply in_map_iff in Hx as (s & <- & Hin).
    unfold members in Hin. apply filter_In in Hin as [Hin _].
    apply traverse_Forall2 in Hs.
    destruct (Forall2_In_r _ _ _ _ Hs Hin) as (row & Hrow & Hsr).
    apply sale_row_inv in Hsr as (_ & Hp & _).
    exact (Hall row (price s) Hrow Hp).
Qed.

Lemma X23_aggregated_price_in_range_witness :
  10000 <= base_price (mkArchetype "tesla" "model 3" (61000 # 2) (4039 # 2))
        <= 31000.
Proof.
  apply (X23_aggregated_price_in_range sales_table
           [ mkArchetype "nissan" "leaf" 10000 2018;
             mkArchetype "tesla" "model 3" (61000 # 2) (4039 # 2) ]).
  - reflexivity.
  - reflexivity.
  - reflexivity.
  - intros row p Hin Hp. simpl in Hin.
    destruct Hin as [<- | [<- | [<- | []]]];
      injection Hp as <-; split; discriminate.
  - right. left. reflexivity.
Defined.

(** X24: in every catalog that [_load_dataset] returns, each make and
    each model is in normal form: lower-casing it or trimming it changes
    nothing. *)
Theorem X24_catalog_keys_in_normal_form (df : DataFrame) (REF_DATA : catalog)
    (a : archetype) :
  _load_dataset df = Some REF_DATA ->
  In a REF_DATA ->
  PyStr.lower (make a) = make a /\ PyStr.strip (make a) = make a /\
  PyStr.lower (model a) = model a /\ PyStr.strip (model a) = model a.
Proof.
  intros Hl Ha.
  destruct (loaded_keys_normalized df REF_DATA a Hl Ha) as [Hmk Hmd].
  assert (forall s, normalize s = s ->
                    PyStr.lower s = s /\ PyStr.strip s = s) as Hn.
  { intros s Hs. unfold normalize in Hs. split.
    - rewrite <- Hs at 1. now rewrite lower_lower.
    - rewrite <- Hs at 1. now rewrite <- lower_strip, strip_strip. }
  destruct (Hn _ Hmk), (Hn _ Hmd). now repeat split.
Qed.

Lemma X24_catalog_keys_in_normal_form_witness :
  PyStr.lower "tesla" = "tesla"%string /\ PyStr.strip "tesla" = "tesla"%string /\
  PyStr.lower "model 3" = "model 3"%string /\
  PyStr.strip "model 3" = "model 3"%string.
Proof.
  apply (X24_catalog_keys_in_normal_form negative_table negative_catalog
           (mkArchetype "tesla" "model 3" (-10000) 2024)).
  - reflexivity.
  - left. reflexivity.
Defined.

End BuilderMore.

(** ** The choice of the input file *)

Section Source.

Lemma length_app_string (a b : string) :
  String.length (a ++ b) = (String.length a + String.length b)%nat.
Proof.
  induction a as [ | c a IH]; simpl; [reflexivity | now rewrite IH].
Qed.

Lemma substring_skip (a b : string) (n m : nat) :
  substring (String.length a + n) m (a ++ b) = substring n m b.
Proof.
  induction a as [ | c a IH]; simpl; [reflexivity | exact IH].
Qed.

Lemma endswith_app (a b suffix : string) :
  (String.length suffix <= String.length b)%nat ->
  endswith (a ++ b) suffix = endswith b suffix.
Proof.
  intros H. unfold endswith. rewrite length_app_string.
  replace (String.length a + String.length b - String.length suffix)%nat
    with (String.length a + (String.length b - String.length suffix))%nat by lia.
  rewrite substring_skip.
  replace (String.length suffix <=? String.length a + String.length b)%nat
    with true by (symmetry; apply Nat.leb_le; lia).
  replace (String.length suffix <=? String.length b)%nat
    with true by (symmetry; apply Nat.leb_le; lia).
  reflexivity.
Qed.

(** Joining a directory and a relative file name appends the name. *)
Lemma path_join_relative (a : string) (c : ascii) (b : string) :
  c <> "/"%char ->
  exists p, path_join a (String c b) = p ++ String c b.
Proof.
  intros Hc. unfold path_join.
  assert (match c with
          | "/"%char => String c b
          | _ => if String.eqb a EmptyString || endswith a "/"
                 then a ++ String c b else a ++ "/" ++ String c b
          end
          = if String.eqb a EmptyString || endswith a "/"
            then a ++ String c b else a ++ "/" ++ String c b) as E.
  { destruct c as [[] [] [] [] [] [] [] []]; try reflexivity.
    now contradiction Hc. }
  change (match String c b with
          | String "/"%char _ => String c b
          | _ => if String.eqb a EmptyString || endswith a "/"
                 then a ++ String c b else a ++ "/" ++ String c b
          end)
    with (match c with
          | "/"%char => String c b
          | _ => if String.eqb a EmptyString || endswith a "/"
                 then a ++ String c b else a ++ "/" ++ String c b
          end).
  rewrite E.
  destruct (String.eqb a EmptyString || endswith a "/").
  - now exists a.
  - exists (a ++ "/"). clear. induction a as [ | x a IH]; simpl in *;
      [reflexivity | now f_equal].
Qed.

Lemma xlsx_path_endswith (here : string) :
  endswith (USER_DATA_XLSX here) ".xlsx" = true.
Proof.
  unfold USER_DATA_XLSX.
  destruct (path_join_relative (DATA_DIR here) "e" "v_data.xlsx") as [p ->];
    [discriminate | ].
  now rewrite endswith_app by (simpl; lia).
Qed.

Lemma csv_path_endswith (here : string) :
  endswith (USER_DATA_CSV here) ".xlsx" = false.
Proof.
  unfold USER_DATA_CSV.
  destruct (path_join_relative (DATA_DIR here) "e" "v_data.csv") as [p ->];
    [discriminate | ].
  now rewrite endswith_app by (simpl; lia).
Qed.

Lemma default_path_endswith (here : string) :
  endswith (DEFAULT_CSV here) ".xlsx" = false.
Proof.
  unfold DEFAULT_CSV.
  destruct (path_join_relative (DATA_DIR here) "s" "ample_ev_data.csv")
    as [p ->]; [discriminate | ].
  now rewrite endswith_app by (simpl; lia).
Qed.

(** X25: whatever the directory of the program and the files present,
    the spreadsheet reader is used exactly when the user's spreadsheet
    exists; the user's CSV file is read only when the spreadsheet does
    not exist; and the file that is read exists unless it is the bundled
    sample. *)
Theorem X25_choice_of_source (here : string) (path_exists : string -> bool) :
  (snd (choose_source here path_exists) = read_excel <->
   path_exists (USER_DATA_XLSX here) = true) /\
  (fst (choose_source here path_exists) = USER_DATA_CSV here ->
   path_exists (USER_DATA_XLSX here) = false) /\
  (fst (choose_source here path_exists) = DEFAULT_CSV here \/
   path_exists (fst (choose_source here path_exists)) = true).
Proof.
  unfold choose_source. cbn [fst snd].
  pose proof (xlsx_path_endswith here) as Hx.
  pose proof (csv_path_endswith here) as Hc.
  pose proof (default_path_endswith here) as Hd.
  destruct (path_exists (USER_DATA_XLSX here)) eqn:E1.
  - rewrite Hx. split; [tauto | split; [ | now right]].
    intros E. rewrite E, Hc in Hx. discriminate.
  - destruct (path_exists (USER_DATA_CSV here)) eqn:E2.
    + rewrite Hc. split; [ | split; [reflexivity | now right]].
      split; discriminate.
    + rewrite Hd. split; [ | split; [reflexivity | now left]].
      split; discriminate.
Qed.

Lemma X25_choice_of_source_witness :
  (snd (choose_source "/srv/app"
          (only_files ["/srv/app/data/ev_data.csv"]%string)) = read_excel <->
   only_files ["/srv/app/data/ev_data.csv"]%string
     (USER_DATA_XLSX "/srv/app") = true) /\
  only_files ["/srv/app/data/ev_data.csv"]%string (USER_DATA_XLSX "/srv/app")
    = false.
Proof.
  destruct (X25_choice_of_source "/srv/app"
              (only_files ["/srv/app/data/ev_data.csv"]%string))
    as (A & B & _).
  split; [exact A | apply B; reflexivity].
Defined.

End Source.
